(** * Solana X402 payment protocol: the TypeScript client and its contract

    A shallow embedding of [client/payment-client.ts]: the Borsh layout of the
    [Payment] account ([PaymentSchema]), the derivation of the payment
    address, the three instruction builders and the read-side helpers.

    Conventions of the embedding.
    - A [Buffer] / [Uint8Array] is a [list byte].
    - A JavaScript string is represented by its UTF-8 code units (a Rocq
      [string]), so [Buffer.from(s, 'utf8')] is [String.list_byte_of_string];
      strings that are not well-formed Unicode are outside the model
      ([Buffer.from] writes every lone surrogate as U+FFFD, so such strings
      are not told apart by their bytes, and no statement below concludes
      that two payment ids are equal from their bytes).
    - Integers ([bigint], [u64], [i64], lengths) are [Z], with the range
      checks of the JavaScript writers written out.
    - A JavaScript [number] is a rational, NaN or an infinity.
    - [async]/[await] is sequential composition; [console] output is left
      out.
    - web3.js (address derivation, the cluster behind a [Connection]) is an
      interface, [Web3], and so is the [deserialize] of the [borsh] package
      that the client calls, [BorshPackage]; the codec the specification
      describes and the on-chain program are not among the sources and are
      modelled from the specification. *)

From Stdlib Require Import ZArith List Lia QArith.
From Stdlib.Strings Require Import Byte.
From stdpp Require Import gmap strings finite.

Local Open Scope Z_scope.

(** ** Buffers *)

Definition Buffer := list byte.

#[global] Instance byte_eq_dec : EqDecision byte := Byte.byte_eq_dec.

#[global] Instance byte_countable : Countable byte :=
  inj_countable Byte.to_N Byte.of_N Byte.of_to_N.

Definition Z_of_byte (b : byte) : Z := Z.of_N (Byte.to_N b).

(** The byte holding the low 8 bits of [z]. *)
Definition byte_of_Z (z : Z) : byte :=
  match Byte.of_N (Z.to_N (z mod 256)) with
  | Some b => b
  | None => x00
  end.

(** [buf.writeUIntLE(v, 0, n)]: [n] bytes, least significant first. *)
Fixpoint writeUIntLE (n : nat) (v : Z) : Buffer :=
  match n with
  | O => []
  | S k => byte_of_Z v :: writeUIntLE k (v / 256)
  end.

(** [buf.readUIntLE(0, buf.length)]: the value of a little-endian buffer. *)
Fixpoint readUIntLE (bs : Buffer) : Z :=
  match bs with
  | [] => 0
  | b :: rest => Z_of_byte b + 256 * readUIntLE rest
  end.

(** [buf.writeBigInt64LE(v)]: the two's complement of [v] on 8 bytes. *)
Definition writeBigInt64LE (v : Z) : Buffer := writeUIntLE 8 (v mod 2 ^ 64).

(** [Buffer.concat(list)]. *)
Definition Buffer_concat (l : list Buffer) : Buffer := concat l.

(** [Buffer.from(value, 'utf8')]. *)
Definition Buffer_from_utf8 (s : string) : Buffer :=
  String.list_byte_of_string s.

(** ** The Borsh reading of a schema *)

(** Modelled from the spec: the codec of sections 4.2 and 6 of the
    specification, as a reading of a schema field by field. The repository
    holds no code for it: the on-chain program that writes the records is
    not among the sources, and the client leaves decoding to the [borsh]
    package. The field encodings are those the specification gives:
    fixed-width fields little-endian, a string as a 4-byte little-endian
    length followed by its UTF-8 bytes, a fixed array as its bytes, the
    fields in schema order with nothing in between; a buffer that is too
    short, or longer than its fields, is refused. *)
Module Borsh.

Inductive FieldType :=
| FixedArray (n : nat)   (* [n] *)
| U8                     (* 'u8' *)
| U64                    (* 'u64' *)
| I64                    (* 'i64' *)
| BString.               (* 'string' *)

(** The values a field of an object can hold. *)
Inductive Value :=
| VBytes (b : Buffer)
| VInt (z : Z)
| VString (s : string).

Definition Schema := list (string * FieldType).

(** *** Writing *)

Definition serializeField (ft : FieldType) (v : Value) : option Buffer :=
  match ft, v with
  | FixedArray n, VBytes b =>
      if decide (length b = n) then Some b else None
  | U8, VInt z =>
      if decide (0 <= z < 2 ^ 8) then Some (writeUIntLE 1 z) else None
  | U64, VInt z =>
      if decide (0 <= z < 2 ^ 64) then Some (writeUIntLE 8 z) else None
  | I64, VInt z =>
      if decide (- 2 ^ 63 <= z < 2 ^ 63)
      then Some (writeBigInt64LE z) else None
  | BString, VString s =>
      let b := Buffer_from_utf8 s in
      if decide (Z.of_nat (length b) < 2 ^ 32)
      then Some (writeUIntLE 4 (Z.of_nat (length b)) ++ b) else None
  | _, _ => None
  end.

(** [serializeStruct]: the fields of [obj] in schema order. *)
Fixpoint serializeStruct (fields : Schema) (obj : gmap string Value)
  : option Buffer :=
  match fields with
  | [] => Some []
  | (fieldName, fieldType) :: rest =>
      v ← obj !! fieldName;
      b ← serializeField fieldType v;
      bs ← serializeStruct rest obj;
      Some (b ++ bs)
  end.

(** *** Reading: a reader consumes a prefix of the buffer or fails. *)

Definition Reader (A : Type) := Buffer -> option (A * Buffer).

Definition ret {A} (a : A) : Reader A := fun buf => Some (a, buf).

Definition bind {A B} (r : Reader A) (k : A -> Reader B) : Reader B :=
  fun buf =>
    match r buf with
    | Some (a, buf') => k a buf'
    | None => None
    end.

(** [readBuffer(len)] fails when fewer than [len] bytes are left. *)
Definition readBuffer (len : nat) : Reader Buffer :=
  fun buf =>
    if decide (len <= length buf)%nat
    then Some (take len buf, drop len buf)
    else None.

Definition readUInt (n : nat) : Reader Z :=
  bind (readBuffer n) (fun b => ret (readUIntLE b)).

(** Two's complement reading of an unsigned 64-bit value. *)
Definition toSigned64 (u : Z) : Z :=
  if decide (u < 2 ^ 63) then u else u - 2 ^ 64.

Definition deserializeField (ft : FieldType) : Reader Value :=
  match ft with
  | FixedArray n => bind (readBuffer n) (fun b => ret (VBytes b))
  | U8 => bind (readUInt 1) (fun z => ret (VInt z))
  | U64 => bind (readUInt 8) (fun z => ret (VInt z))
  | I64 => bind (readUInt 8) (fun z => ret (VInt (toSigned64 z)))
  | BString =>
      bind (readUInt 4) (fun len =>
      bind (readBuffer (Z.to_nat len)) (fun b =>
      ret (VString (String.string_of_list_byte b))))
  end.

(** [deserializeStruct]: reads the fields in schema order into an object. *)
Fixpoint deserializeStruct (fields : Schema) : Reader (gmap string Value) :=
  match fields with
  | [] => ret ∅
  | (fieldName, fieldType) :: rest =>
      bind (deserializeField fieldType) (fun v =>
      bind (deserializeStruct rest) (fun obj =>
      ret (<[fieldName := v]> obj)))
  end.

(** [deserialize] rejects bytes left over after the last field. *)
Definition deserialize (fields : Schema) (buf : Buffer)
  : option (gmap string Value) :=
  match deserializeStruct fields buf with
  | Some (obj, []) => Some obj
  | _ => None
  end.

End Borsh.

(** ** The Payment account *)

(** [enum PaymentStatus]: a number at run time. *)
Definition PaymentStatus := Z.

Module PaymentStatus.
Definition Pending : PaymentStatus := 0.
Definition Completed : PaymentStatus := 1.
Definition Cancelled : PaymentStatus := 2.
End PaymentStatus.

Definition paymentStatusToString (status : PaymentStatus) : string :=
  if decide (status = PaymentStatus.Pending) then "Pending"
  else if decide (status = PaymentStatus.Completed) then "Completed"
  else if decide (status = PaymentStatus.Cancelled) then "Cancelled"
  else "Unknown".

Record Payment := {
  payer : Buffer;
  recipient : Buffer;
  amount : Z;
  payment_id : string;
  status : PaymentStatus;
  timestamp : Z;
}.

(** The Borsh schema of [Payment], field by field as in the source. *)
Definition PaymentSchema : Borsh.Schema :=
  [ ("payer", Borsh.FixedArray 32);
    ("recipient", Borsh.FixedArray 32);
    ("amount", Borsh.U64);
    ("payment_id", Borsh.BString);
    ("status", Borsh.U8);
    ("timestamp", Borsh.I64) ].

(** A [Payment] seen as the object whose properties the schema names. *)
Definition Payment_object (p : Payment) : gmap string Borsh.Value :=
  <["payer" := Borsh.VBytes (payer p)]>
  (<["recipient" := Borsh.VBytes (recipient p)]>
  (<["amount" := Borsh.VInt (amount p)]>
  (<["payment_id" := Borsh.VString (payment_id p)]>
  (<["status" := Borsh.VInt (status p)]>
  (<["timestamp" := Borsh.VInt (timestamp p)]> ∅))))).

(** [new Payment(fields)]. *)
Definition new_Payment (fields : gmap string Borsh.Value) : option Payment :=
  match fields !! "payer", fields !! "recipient", fields !! "amount",
        fields !! "payment_id", fields !! "status", fields !! "timestamp" with
  | Some (Borsh.VBytes p), Some (Borsh.VBytes r), Some (Borsh.VInt a),
    Some (Borsh.VString i), Some (Borsh.VInt s), Some (Borsh.VInt t) =>
      Some {| payer := p; recipient := r; amount := a;
              payment_id := i; status := s; timestamp := t |}
  | _, _, _, _, _, _ => None
  end.

(** A valid record: its fields have the types section 3 of the
    specification gives them. The length prefix of a string is a [u32], so
    the identifier's bytes number less than [2 ^ 32]. *)
Definition valid_Payment (r : Payment) : Prop :=
  length (payer r) = 32%nat /\
  length (recipient r) = 32%nat /\
  0 <= amount r < 2 ^ 64 /\
  (1 <= length (Buffer_from_utf8 (payment_id r)))%nat /\
  Z.of_nat (length (Buffer_from_utf8 (payment_id r))) < 2 ^ 32 /\
  (status r = PaymentStatus.Pending \/ status r = PaymentStatus.Completed \/
   status r = PaymentStatus.Cancelled) /\
  - 2 ^ 63 <= timestamp r < 2 ^ 63.

(** Modelled from the spec: [encode] of section 4.2, the bytes of a record
    as the program stores them. The client imports [serialize] of the
    [borsh] package and never calls it. *)
Definition serialize (p : Payment) : option Buffer :=
  Borsh.serializeStruct PaymentSchema (Payment_object p).

(** Modelled from the spec: [decode] of section 4.2, the record that stored
    bytes stand for. What the client's own call
    [deserialize(PaymentSchema, Payment, data)] returns is left to the
    package, [package_deserialize] below. *)
Definition deserialize (data : Buffer) : option Payment :=
  fields ← Borsh.deserialize PaymentSchema data;
  new_Payment fields.

(** ** web3.js: keys, accounts, instructions, transactions *)

(** A [PublicKey] is its 32-byte [toBuffer()]. *)
Definition PublicKey := Buffer.

Record Keypair := {
  publicKey : PublicKey;
  secretKey : Buffer;
}.

Record AccountMeta := {
  pubkey : PublicKey;
  isSigner : bool;
  isWritable : bool;
}.

Record TransactionInstruction := {
  keys : list AccountMeta;
  ix_programId : PublicKey;
  data : Buffer;
}.

Record Transaction := {
  instructions : list TransactionInstruction;
}.

Definition new_Transaction : Transaction := {| instructions := [] |}.

Definition Transaction_add (t : Transaction) (i : TransactionInstruction)
  : Transaction :=
  {| instructions := instructions t ++ [i] |}.

(** [SystemProgram.programId]: the all-zero key. *)
Definition SystemProgram_programId : PublicKey := repeat x00 32.

Record AccountInfo := {
  lamports : Z;
  account_data : Buffer;
  owner : PublicKey;
}.

(** The accounts of the cluster, by address. *)
Abbreviation Ledger := (gmap PublicKey AccountInfo).

(** ** Exceptions and outcomes *)

Inductive Exception :=
| Error (message : string)
| TypeError (message : string)
| RangeError (message : string)
| BorshError (message : string)
| SendTransactionError (message : string).

Inductive Outcome (A : Type) :=
| Return (a : A)
| Throw (e : Exception).
Arguments Return {A} a.
Arguments Throw {A} e.

#[global] Instance Outcome_ret : MRet Outcome := fun A a => Return a.
#[global] Instance Outcome_bind : MBind Outcome := fun A B k o =>
  match o with
  | Return a => k a
  | Throw e => Throw e
  end.

(** ** JavaScript numbers *)

Inductive number :=
| Finite (q : Q)
| NaN
| PosInfinity
| NegInfinity.

(** [value <= 0]. *)
Definition number_le_0 (value : number) : bool :=
  match value with
  | Finite q => Qle_bool q 0
  | NegInfinity => true
  | NaN | PosInfinity => false
  end.

(** [BigInt(value)]: a RangeError unless [value] is an integer. *)
Definition BigInt (value : number) : Outcome Z :=
  match value with
  | Finite q =>
      if decide (Qnum q mod Z.pos (Qden q) = 0)
      then Return (Qnum q / Z.pos (Qden q))
      else Throw (RangeError "The number cannot be converted to a BigInt because it is not an integer")
  | NaN | PosInfinity | NegInfinity =>
      Throw (RangeError "The number cannot be converted to a BigInt because it is not an integer")
  end.

(** [buffer.writeBigUInt64LE(v)] on [Buffer.alloc(8)]. *)
Definition writeBigUInt64LE (v : Z) : Outcome Buffer :=
  if decide (0 <= v < 2 ^ 64) then Return (writeUIntLE 8 v)
  else Throw (RangeError "ERR_OUT_OF_RANGE").

(** [buffer.writeUInt32LE(v)] on [Buffer.alloc(4)]. *)
Definition writeUInt32LE (v : Z) : Outcome Buffer :=
  if decide (0 <= v < 2 ^ 32) then Return (writeUIntLE 4 v)
  else Throw (RangeError "ERR_OUT_OF_RANGE").

(** ** The world a client runs in *)

(** What web3.js and the cluster do is not code of the repository: the
    derivation of a program address from seeds, and the execution of a signed
    transaction by the cluster, are taken as an interface. *)
Class Web3 := {
  findProgramAddress : list Buffer -> PublicKey -> Outcome (PublicKey * Z);
  execute : Ledger -> Transaction -> list Keypair -> string
            -> Outcome string * Ledger;
}.

(** The [borsh] package is a dependency as well. The client calls its
    [deserialize] in one place, with [PaymentSchema], the class [Payment]
    and the bytes of an account; what the package makes of them, a
    [Payment] or an exception, is taken as an interface. *)
Class BorshPackage := {
  package_deserialize : Borsh.Schema -> Buffer -> Outcome Payment;
}.

(** The ledger behind the [Connection], and the transactions handed to
    [sendAndConfirmTransaction] so far, oldest first. *)
Record World := {
  ledger : Ledger;
  submitted : list (Transaction * list Keypair);
}.

Definition Client (A : Type) := World -> Outcome A * World.

#[global] Instance Client_ret : MRet Client := fun A a w => (Return a, w).
#[global] Instance Client_bind : MBind Client := fun A B k c w =>
  match c w with
  | (Return a, w') => k a w'
  | (Throw e, w') => (Throw e, w')
  end.

Definition throw {A} (e : Exception) : Client A := fun w => (Throw e, w).

Definition lift {A} (o : Outcome A) : Client A := fun w => (o, w).

(** [try { body } catch (error) { handler }]. *)
Definition try_catch {A} (body : Client A) (handler : Exception -> Client A)
  : Client A :=
  fun w =>
    match body w with
    | (Return a, w') => (Return a, w')
    | (Throw e, w') => handler e w'
    end.

(** [connection.getAccountInfo(address)]. *)
Definition getAccountInfo (address : PublicKey) : Client (option AccountInfo) :=
  fun w => (Return (ledger w !! address), w).

(** [sendAndConfirmTransaction(connection, transaction, signers, options)]. *)
Definition sendAndConfirmTransaction `{Web3} (transaction : Transaction)
    (signers : list Keypair) (options : string) : Client string :=
  fun w =>
    let '(result, ledger') := execute (ledger w) transaction signers options in
    (result, {| ledger := ledger';
                submitted := submitted w ++ [(transaction, signers)] |}).

(** ** The client *)

Record PaymentProtocolClient := {
  programId : PublicKey;
  confirmOptions : string;
}.

Definition dquote : string := String (Ascii.ascii_of_nat 34) EmptyString.

(** The errors the client throws, under the names the specification gives
    to their kinds. *)
Definition InvalidAmount : Exception :=
  Error "Payment amount must be greater than 0".
Definition InvalidPaymentId : Exception :=
  Error "Payment ID cannot be empty".
Definition PaymentAlreadyExists (paymentId : string) : Exception :=
  Error ("Payment with ID " +:+ dquote +:+ paymentId +:+ dquote
         +:+ " already exists").
Definition PaymentNotFound (paymentId : string) : Exception :=
  Error ("Payment with ID " +:+ dquote +:+ paymentId +:+ dquote
         +:+ " not found").
Definition InvalidStateTransition (status : PaymentStatus) (verb : string)
  : Exception :=
  Error ("Payment is " +:+ paymentStatusToString status +:+ ", cannot "
         +:+ verb).

Section Client.
Context `{Web3} `{BorshPackage}.
Variable this : PaymentProtocolClient.

Definition serializeU64 (value : number) : Outcome Buffer :=
  v ← BigInt value;
  writeBigUInt64LE v.

Definition serializeString (value : string) : Outcome Buffer :=
  let stringBytes := Buffer_from_utf8 value in
  lengthBuffer ← writeUInt32LE (Z.of_nat (length stringBytes));
  mret (Buffer_concat [lengthBuffer; stringBytes]).

Definition getPaymentPDA (payer : PublicKey) (paymentId : string)
  : Outcome (PublicKey * Z) :=
  findProgramAddress
    [ Buffer_from_utf8 "payment"; payer; Buffer_from_utf8 paymentId ]
    (programId this).

Definition getPayment (payer : PublicKey) (paymentId : string)
  : Client (option Payment) :=
  try_catch
    ('(paymentPDA, _) ← lift (getPaymentPDA payer paymentId);
     accountInfo ← getAccountInfo paymentPDA;
     match accountInfo with
     | None => mret None
     | Some info =>
         payment ← lift (package_deserialize PaymentSchema (account_data info));
         mret (Some payment)
     end)
    (fun error => mret None).

Definition paymentExists (payer : PublicKey) (paymentId : string)
  : Client bool :=
  payment ← getPayment payer paymentId;
  mret (match payment with Some _ => true | None => false end).

Definition getPaymentStatus (payer : PublicKey) (paymentId : string)
  : Client (option PaymentStatus) :=
  payment ← getPayment payer paymentId;
  mret (match payment with Some p => Some (status p) | None => None end).

Definition initializePayment (payer : Keypair) (recipient : PublicKey)
    (amount : number) (paymentId : string) : Client string :=
  try_catch
    (if number_le_0 amount then throw InvalidAmount
     else if bool_decide (paymentId = "") || (String.length paymentId =? 0)%nat
     then throw InvalidPaymentId
     else
       '(paymentPDA, _) ← lift (getPaymentPDA (publicKey payer) paymentId);
       existingAccount ← getAccountInfo paymentPDA;
       match existingAccount with
       | Some _ => throw (PaymentAlreadyExists paymentId)
       | None =>
           instructionData ← lift (
             amountBytes ← serializeU64 amount;
             idBytes ← serializeString paymentId;
             mret (Buffer_concat [[x00]; amountBytes; idBytes]));
           let instruction :=
             {| keys :=
                  [ {| pubkey := publicKey payer;
                       isSigner := true; isWritable := true |};
                    {| pubkey := paymentPDA;
                       isSigner := false; isWritable := true |};
                    {| pubkey := recipient;
                       isSigner := false; isWritable := false |};
                    {| pubkey := SystemProgram_programId;
                       isSigner := false; isWritable := false |} ];
                ix_programId := programId this;
                data := instructionData |} in
           let transaction := Transaction_add new_Transaction instruction in
           signature ← sendAndConfirmTransaction transaction [payer]
                         (confirmOptions this);
           mret signature
       end)
    (fun error => throw error).

Definition completePayment (payer : Keypair) (recipient : PublicKey)
    (paymentId : string) : Client string :=
  try_catch
    ('(paymentPDA, _) ← lift (getPaymentPDA (publicKey payer) paymentId);
     payment ← getPayment (publicKey payer) paymentId;
     match payment with
     | None => throw (PaymentNotFound paymentId)
     | Some payment =>
         if decide (status payment ≠ PaymentStatus.Pending)
         then throw (InvalidStateTransition (status payment) "complete")
         else
           let instructionData := [x01] in
           let instruction :=
             {| keys :=
                  [ {| pubkey := publicKey payer;
                       isSigner := true; isWritable := true |};
                    {| pubkey := paymentPDA;
                       isSigner := false; isWritable := true |};
                    {| pubkey := recipient;
                       isSigner := false; isWritable := true |};
                    {| pubkey := SystemProgram_programId;
                       isSigner := false; isWritable := false |} ];
                ix_programId := programId this;
                data := instructionData |} in
           let transaction := Transaction_add new_Transaction instruction in
           signature ← sendAndConfirmTransaction transaction [payer]
                         (confirmOptions this);
           mret signature
     end)
    (fun error => throw error).

Definition cancelPayment (payer : Keypair) (paymentId : string)
  : Client string :=
  try_catch
    ('(paymentPDA, _) ← lift (getPaymentPDA (publicKey payer) paymentId);
     payment ← getPayment (publicKey payer) paymentId;
     match payment with
     | None => throw (PaymentNotFound paymentId)
     | Some payment =>
         if decide (status payment ≠ PaymentStatus.Pending)
         then throw (InvalidStateTransition (status payment) "cancel")
         else
           let instructionData := [x02] in
           let instruction :=
             {| keys :=
                  [ {| pubkey := publicKey payer;
                       isSigner := true; isWritable := true |};
                    {| pubkey := paymentPDA;
                       isSigner := false; isWritable := true |};
                    {| pubkey := SystemProgram_programId;
                       isSigner := false; isWritable := false |} ];
                ix_programId := programId this;
                data := instructionData |} in
           let transaction := Transaction_add new_Transaction instruction in
           signature ← sendAndConfirmTransaction transaction [payer]
                         (confirmOptions this);
           mret signature
     end)
    (fun error => throw error).

End Client.

(** The transactions the three operations hand to
    [sendAndConfirmTransaction], named for use in statements: one
    instruction each, with the account list and program id of the source. *)

Definition initializeTransaction (this : PaymentProtocolClient)
    (payer_ : Keypair) (paymentPDA recipient_ : PublicKey)
    (instructionData : Buffer) : Transaction :=
  {| instructions :=
       [ {| keys :=
              [ {| pubkey := publicKey payer_;
                   isSigner := true; isWritable := true |};
                {| pubkey := paymentPDA;
                   isSigner := false; isWritable := true |};
                {| pubkey := recipient_;
                   isSigner := false; isWritable := false |};
                {| pubkey := SystemProgram_programId;
                   isSigner := false; isWritable := false |} ];
            ix_programId := programId this;
            data := instructionData |} ] |}.

Definition completeTransaction (this : PaymentProtocolClient)
    (payer_ : Keypair) (paymentPDA recipient_ : PublicKey) : Transaction :=
  {| instructions :=
       [ {| keys :=
              [ {| pubkey := publicKey payer_;
                   isSigner := true; isWritable := true |};
                {| pubkey := paymentPDA;
                   isSigner := false; isWritable := true |};
                {| pubkey := recipient_;
                   isSigner := false; isWritable := true |};
                {| pubkey := SystemProgram_programId;
                   isSigner := false; isWritable := false |} ];
            ix_programId := programId this;
            data := [x01] |} ] |}.

Definition cancelTransaction (this : PaymentProtocolClient)
    (payer_ : Keypair) (paymentPDA : PublicKey) : Transaction :=
  {| instructions :=
       [ {| keys :=
              [ {| pubkey := publicKey payer_;
                   isSigner := true; isWritable := true |};
                {| pubkey := paymentPDA;
                   isSigner := false; isWritable := true |};
                {| pubkey := SystemProgram_programId;
                   isSigner := false; isWritable := false |} ];
            ix_programId := programId this;
            data := [x02] |} ] |}.

(** The transactions a client computation hands over when run in [w]. *)
Definition sent {A} (c : Client A) (w : World)
  : list (Transaction * list Keypair) :=
  drop (length (submitted w)) (submitted (snd (c w))).

(** What [getPayment] makes of the bytes of an account: the record the
    package returns, or null when the package throws. *)
Definition decoded `{BorshPackage} (data : Buffer) : option Payment :=
  match package_deserialize PaymentSchema data with
  | Return payment => Some payment
  | Throw _ => None
  end.

(** A package that refuses [PaymentSchema]: given it, [deserialize] throws
    whatever the bytes are. *)
Definition refuses_PaymentSchema `{BorshPackage} : Prop :=
  forall data, exists e, package_deserialize PaymentSchema data = Throw e.

(** The shape of what an operation of the client hands over for [payer_]:
    at most one transaction, signed by the payer alone, holding one
    instruction addressed to the client's program. *)
Definition one_signed_instruction (this : PaymentProtocolClient)
    (payer_ : Keypair) (l : list (Transaction * list Keypair)) : Prop :=
  (length l <= 1)%nat /\
  forall t signers,
    In (t, signers) l ->
    signers = [payer_] /\
    exists ix, instructions t = [ix] /\ ix_programId ix = programId this.

(** ** Addresses and pairs *)









(** The bytes, each once. *)
Definition byte_enum : list byte :=
  omap (fun n => Byte.of_N (N.of_nat n)) (seq 0 256).

(** The byte length of the payment id of a record. *)
Definition id_length (r : Payment) : nat :=
  length (Buffer_from_utf8 (payment_id r)).

(** ** The state transition processor *)

(** Modelled from the spec: the on-chain program, the Rust contract the
    client's instructions are sent to, is not among the sources. Its three
    transitions follow section 4.3 of the specification: each checks its
    preconditions in the order the specification lists them, and only then
    moves value and writes the record. Sections 6 and 9 give the store
    interface ([transfer], [allocate], [put]) and the time source;
    section 4.1 gives the address deriver, taken here as a function. *)
Module Processor.

Inductive Error :=
| Unauthorized
| InvalidAmount
| InvalidPaymentId
| PaymentAlreadyExists
| InsufficientFunds
| PaymentNotFound
| RecipientMismatch
| InvalidStateTransition
| InsufficientEscrowBalance
| AddressDerivationError
| MalformedAccountError
| AddressInUse.

Inductive Result (A : Type) :=
| Ok (a : A)
| Err (e : Error).
Arguments Ok {A} a.
Arguments Err {A} e.

#[global] Instance Result_ret : MRet Result := fun A a => Ok a.
#[global] Instance Result_bind : MBind Result := fun A B k r =>
  match r with
  | Ok a => k a
  | Err e => Err e
  end.

(** *** The store *)

Definition balance (l : Ledger) (a : PublicKey) : Z :=
  match l !! a with
  | Some acc => lamports acc
  | None => 0
  end.

Definition set_lamports (a : PublicKey) (v : Z) (l : Ledger) : Ledger :=
  match l !! a with
  | Some acc =>
      <[a := {| lamports := v; account_data := account_data acc;
                owner := owner acc |}]> l
  | None =>
      <[a := {| lamports := v; account_data := [];
                owner := SystemProgram_programId |}]> l
  end.

(** [transfer(from, to, amount) -> ok | InsufficientFunds]. *)
Definition transfer (from to : PublicKey) (amount : Z) (l : Ledger)
  : Result Ledger :=
  if decide (balance l from < amount) then Err InsufficientFunds
  else
    let l1 := set_lamports from (balance l from - amount) l in
    Ok (set_lamports to (balance l1 to + amount) l1).

(** [allocate(address, size) -> ok | AddressInUse]. *)
Definition allocate (program address : PublicKey) (size : nat) (l : Ledger)
  : Result Ledger :=
  match l !! address with
  | Some _ => Err AddressInUse
  | None =>
      Ok (<[address := {| lamports := 0; account_data := repeat x00 size;
                          owner := program |}]> l)
  end.

(** [put(address, bytes)]. *)
Definition put (address : PublicKey) (bytes : Buffer) (l : Ledger)
  : Ledger :=
  match l !! address with
  | Some acc =>
      <[address := {| lamports := lamports acc; account_data := bytes;
                      owner := owner acc |}]> l
  | None => l
  end.

(** [decodePayment] of the account at [address]. *)
Definition record_at (l : Ledger) (address : PublicKey) : Result Payment :=
  match l !! address with
  | None => Err PaymentNotFound
  | Some acc =>
      match deserialize (account_data acc) with
      | Some r => Ok r
      | None => Err MalformedAccountError
      end
  end.

Definition with_status (r : Payment) (s : PaymentStatus) : Payment :=
  {| payer := payer r; recipient := recipient r; amount := amount r;
     payment_id := payment_id r; status := s; timestamp := timestamp r |}.

Definition write_record (address : PublicKey) (r : Payment) (l : Ledger)
  : Result Ledger :=
  match serialize r with
  | Some bytes => Ok (put address bytes l)
  | None => Err MalformedAccountError
  end.

Section Transitions.
(** The program's identity, the address deriver of section 4.1, the
    overhead of moving value in, and the trusted clock's reading. *)
Variable program : PublicKey.
Variable derivePaymentAddress : PublicKey -> string -> option PublicKey.
Variable overhead : Z.
Variable now : Z.

Definition derive (payer_ : PublicKey) (payment_id_ : string)
  : Result PublicKey :=
  match derivePaymentAddress payer_ payment_id_ with
  | Some a => Ok a
  | None => Err AddressDerivationError
  end.

Definition require (ok : bool) (e : Error) : Result unit :=
  if ok then Ok tt else Err e.

(** Modelled from the spec: Initialize(payer, recipient, amount,
    payment_id) of section 4.3. *)
Definition Initialize (signed : bool) (payer_ recipient_ : PublicKey)
    (amount_ : Z) (payment_id_ : string) (l : Ledger) : Result Ledger :=
  _ ← require signed Unauthorized;
  _ ← require (bool_decide (0 < amount_)) InvalidAmount;
  _ ← require (negb (bool_decide (payment_id_ = ""))) InvalidPaymentId;
  address ← derive payer_ payment_id_;
  _ ← require (bool_decide (l !! address = None)) PaymentAlreadyExists;
  _ ← require (bool_decide (amount_ + overhead <= balance l payer_))
        InsufficientFunds;
  let record :=
    {| payer := payer_; recipient := recipient_; amount := amount_;
       payment_id := payment_id_; status := PaymentStatus.Pending;
       timestamp := now |} in
  bytes ← match serialize record with
          | Some b => Ok b
          | None => Err MalformedAccountError
          end;
  l1 ← allocate program address (length bytes) l;
  l2 ← transfer payer_ address amount_ l1;
  Ok (put address bytes l2).

(** Modelled from the spec: Complete(payer, recipient, payment_id) of
    section 4.3. The recipient argument is compared with the recorded one
    before any value moves. *)
Definition Complete (signed : bool) (payer_ recipient_ : PublicKey)
    (payment_id_ : string) (l : Ledger) : Result Ledger :=
  address ← derive payer_ payment_id_;
  record ← record_at l address;
  _ ← require signed Unauthorized;
  _ ← require (bool_decide (recipient_ = recipient record))
        RecipientMismatch;
  _ ← require (bool_decide (status record = PaymentStatus.Pending))
        InvalidStateTransition;
  _ ← require (bool_decide (amount record <= balance l address))
        InsufficientEscrowBalance;
  l1 ← transfer address recipient_ (amount record) l;
  write_record address (with_status record PaymentStatus.Completed) l1.

(** Modelled from the spec: Cancel(payer, payment_id) of section 4.3. *)
Definition Cancel (signed : bool) (payer_ : PublicKey)
    (payment_id_ : string) (l : Ledger) : Result Ledger :=
  address ← derive payer_ payment_id_;
  record ← record_at l address;
  _ ← require signed Unauthorized;
  _ ← require (bool_decide (status record = PaymentStatus.Pending))
        InvalidStateTransition;
  l1 ← transfer address payer_ (amount record) l;
  write_record address (with_status record PaymentStatus.Cancelled) l1.

(** One transition attempt: it applies in full or leaves the ledger as
    it was, and reports the error. *)
Definition attempt (t : Ledger -> Result Ledger) (l : Ledger)
  : option Error * Ledger :=
  match t l with
  | Ok l' => (None, l')
  | Err e => (Some e, l)
  end.

End Transitions.

End Processor.

(** ** The package as the client finds it *)

(** A stand-in for [deserialize] of the [borsh] package in the versions the
    repository names. [PaymentSchema] is written for version 0.7: a Map from
    the class to its fields. That version reads a field whose type is named
    by a string with the reader's method of that name ([readU8], [readU64],
    [readString]) and a fixed array with [readFixedArray]; its reader has no
    [readI64], so the call of the missing method is a TypeError. A read
    past the end of the buffer is a BorshError, and so are bytes left over.
    (package.json asks for version 2, which takes a schema object and
    refuses a Map before it reads a byte.) *)
Module Installed.

(** The field types the reader has a method for. *)
Definition reader_has_method (ft : Borsh.FieldType) : bool :=
  match ft with
  | Borsh.I64 => false
  | _ => true
  end.

Fixpoint deserializeStruct (fields : Borsh.Schema) (buf : Buffer)
  : Outcome (gmap string Borsh.Value * Buffer) :=
  match fields with
  | [] => Return (∅, buf)
  | (fieldName, fieldType) :: rest =>
      if reader_has_method fieldType then
        match Borsh.deserializeField fieldType buf with
        | Some (v, buf') =>
            '(obj, buf'') ← deserializeStruct rest buf';
            Return (<[fieldName := v]> obj, buf'')
        | None => Throw (BorshError "Reached the end of buffer")
        end
      else Throw (TypeError "reader.readI64 is not a function")
  end.

Definition deserialize (schema : Borsh.Schema) (data : Buffer)
  : Outcome Payment :=
  '(obj, rest) ← deserializeStruct schema data;
  match rest, new_Payment obj with
  | [], Some payment => Return payment
  | [], None => Throw (TypeError "fields")   (* a schema of another class *)
  | _ :: _, _ => Throw (BorshError "Unexpected bytes after deserialized data")
  end.

Definition package : BorshPackage :=
  {| package_deserialize := deserialize |}.

End Installed.

(** ** Concrete stand-ins, to run the definitions on examples *)

Module Demo.

(** A stand-in for the address derivation: a polynomial checksum of the
    seeds and the program id, as 32 bytes, with bump 255. *)
Definition checksum (bs : Buffer) : Z :=
  fold_left (fun h b => (h * 257 + Z_of_byte b + 1) mod 2 ^ 256) bs 0.

Definition derive_by_checksum (seeds : list Buffer) (program : PublicKey)
  : Outcome (PublicKey * Z) :=
  Return (writeUIntLE 32 (checksum (concat seeds ++ program)), 255).

(** A stand-in for the cluster: it confirms whatever it is sent and leaves
    the ledger as it is. *)
Definition confirm_all (l : Ledger) (t : Transaction)
    (signers : list Keypair) (options : string) : Outcome string * Ledger :=
  (Return "signature", l).

#[global] Instance web3 : Web3 :=
  {| findProgramAddress := derive_by_checksum;
     execute := confirm_all |}.

(** The examples run with the package as the client finds it. *)
#[global] Instance package : BorshPackage := Installed.package.

Definition client : PaymentProtocolClient :=
  {| programId := repeat x07 32; confirmOptions := "confirmed" |}.

Definition alice : Keypair :=
  {| publicKey := repeat x01 32; secretKey := repeat x09 64 |}.

Definition bob : PublicKey := repeat x02 32.
Definition carol : PublicKey := repeat x03 32.

Definition derivePaymentAddress (payer_ : PublicKey) (payment_id_ : string)
  : option PublicKey :=
  match getPaymentPDA client payer_ payment_id_ with
  | Return (a, _) => Some a
  | Throw _ => None
  end.

Definition payment : Payment :=
  {| payer := publicKey alice; recipient := bob; amount := 500000;
     payment_id := "P-1"; status := PaymentStatus.Pending;
     timestamp := 1761782400 |}.

Definition genesis : Ledger :=
  {[ publicKey alice :=
       {| lamports := 2000000000; account_data := [];
          owner := SystemProgram_programId |} ]}.

Definition empty_world : World := {| ledger := genesis; submitted := [] |}.

(** The derived address of alice's payment "P-1". *)
Definition pda : PublicKey :=
  match derivePaymentAddress (publicKey alice) "P-1" with
  | Some a => a
  | None => []
  end.

(** The account holding [r] at [pda], with the escrowed amount. *)
Definition payment_account (r : Payment) : AccountInfo :=
  {| lamports := amount r;
     account_data := match serialize r with Some b => b | None => [] end;
     owner := programId client |}.

Definition completed_payment : Payment :=
  Processor.with_status payment PaymentStatus.Completed.

(** The same payment with a timestamp two seconds before 1970. *)
Definition backdated_payment : Payment :=
  {| payer := publicKey alice; recipient := bob; amount := 500000;
     payment_id := "P-1"; status := PaymentStatus.Pending;
     timestamp := - 2 |}.

(** "P-1" was initialized and is pending. *)
Definition pending_world : World :=
  {| ledger := <[pda := payment_account payment]> genesis;
     submitted := [] |}.

(** "P-1" was initialized and completed. *)
Definition completed_world : World :=
  {| ledger := <[pda := payment_account completed_payment]> genesis;
     submitted := [] |}.

(** An account whose bytes are no Payment record. *)
Definition malformed_account : AccountInfo :=
  {| lamports := 1; account_data := [x2a]; owner := programId client |}.

Definition malformed_world : World :=
  {| ledger := <[pda := malformed_account]> genesis; submitted := [] |}.

End Demo.

(** A second stand-in for the address derivation: it refuses a seed longer
    than 32 bytes with a TypeError, as web3.js's own derivation does, and
    derives as [Demo]'s otherwise; the cluster is [Demo]'s. *)
Module Strict.

Definition MAX_SEED_LENGTH : nat := 32.

Definition derive_bounded (seeds : list Buffer) (program : PublicKey)
  : Outcome (PublicKey * Z) :=
  if forallb (fun seed => (length seed <=? MAX_SEED_LENGTH)%nat) seeds
  then Demo.derive_by_checksum seeds program
  else Throw (TypeError "Max seed length exceeded").

Definition web3 : Web3 :=
  {| findProgramAddress := derive_bounded;
     execute := Demo.confirm_all |}.

(** A payment id of 34 bytes. *)
Definition long_id : string := "0123456789012345678901234567890123".

End Strict.

(** * Properties *)

(** ** Bytes and little-endian integers *)

Lemma Z_of_byte_range (b : byte) : 0 <= Z_of_byte b < 256.
Proof.
  unfold Z_of_byte. pose proof (Byte.to_N_bounded b). lia.
Qed.

Lemma Z_of_byte_of_Z (z : Z) : Z_of_byte (byte_of_Z z) = z mod 256.
Proof.
  unfold Z_of_byte, byte_of_Z.
  pose proof (Z.mod_pos_bound z 256 ltac:(lia)) as Hm.
  destruct (Byte.of_N (Z.to_N (z mod 256))) as [b|] eqn:E.
  - apply Byte.to_of_N in E. rewrite E. lia.
  - apply Byte.of_N_None_iff in E. lia.
Qed.

Lemma byte_of_Z_of_byte (b : byte) : byte_of_Z (Z_of_byte b) = b.
Proof.
  unfold byte_of_Z, Z_of_byte.
  pose proof (Byte.to_N_bounded b).
  rewrite Z.mod_small by lia.
  rewrite N2Z.id, Byte.of_to_N. reflexivity.
Qed.

Lemma length_writeUIntLE (n : nat) (v : Z) : length (writeUIntLE n v) = n.
Proof.
  revert v. induction n as [|n IH]; intros v; simpl; [reflexivity|].
  now rewrite IH.
Qed.

Lemma readUIntLE_range (bs : Buffer) :
  0 <= readUIntLE bs < 256 ^ Z.of_nat (length bs).
Proof.
  induction bs as [|b bs IH].
  - simpl. lia.
  - cbn [readUIntLE length]. rewrite Nat2Z.inj_succ, Z.pow_succ_r by lia.
    pose proof (Z_of_byte_range b). lia.
Qed.

(** Reading back what was written gives the value, when it fits. *)
Lemma readUIntLE_writeUIntLE (n : nat) (v : Z) :
  0 <= v < 256 ^ Z.of_nat n -> readUIntLE (writeUIntLE n v) = v.
Proof.
  revert v. induction n as [|n IH]; intros v Hv.
  - simpl in *. lia.
  - cbn [writeUIntLE readUIntLE]. rewrite Z_of_byte_of_Z.
    rewrite Nat2Z.inj_succ, Z.pow_succ_r in Hv by lia.
    rewrite IH.
    + pose proof (Z.div_mod v 256 ltac:(lia)). lia.
    + split; [apply Z.div_pos; lia | apply Z.div_lt_upper_bound; lia].
Qed.

Lemma writeUIntLE_readUIntLE (bs : Buffer) :
  writeUIntLE (length bs) (readUIntLE bs) = bs.
Proof.
  induction bs as [|b bs IH]; [reflexivity|].
  cbn [length writeUIntLE readUIntLE].
  pose proof (Z_of_byte_range b) as Hb.
  replace (Z_of_byte b + 256 * readUIntLE bs)
    with (Z_of_byte b + readUIntLE bs * 256) by lia.
  f_equal.
  - rewrite <- (byte_of_Z_of_byte b) at 2.
    unfold byte_of_Z. now rewrite Z_mod_plus_full.
  - rewrite Z.div_add by lia.
    rewrite (Z.div_small (Z_of_byte b)) by lia. exact IH.
Qed.

(** Byte [i] of a little-endian writing holds bits [8i .. 8i+7]. *)
Lemma writeUIntLE_lookup (n i : nat) (v : Z) :
  (i < n)%nat ->
  writeUIntLE n v !! i = Some (byte_of_Z (v / 256 ^ Z.of_nat i)).
Proof.
  revert i v. induction n as [|n IH]; intros i v Hi; [lia|].
  destruct i as [|i]; cbn [writeUIntLE].
  - simpl. now rewrite Z.div_1_r.
  - change ((byte_of_Z v :: writeUIntLE n (v / 256)) !! S i)
      with (writeUIntLE n (v / 256) !! i).
    rewrite IH by lia. f_equal. f_equal.
    rewrite Nat2Z.inj_succ, Z.pow_succ_r by lia.
    rewrite Z.div_div by lia. reflexivity.
Qed.

Lemma length_Buffer_from_utf8 (s : string) :
  length (Buffer_from_utf8 s) = String.length s.
Proof.
  unfold Buffer_from_utf8, String.list_byte_of_string.
  rewrite length_map. induction s as [|a s IH]; simpl; congruence.
Qed.

(** ** The Borsh codec: reading inverts writing *)

Module BorshFacts.
Import Borsh.

Lemma readBuffer_app (b rest : Buffer) :
  readBuffer (length b) (b ++ rest) = Some (b, rest).
Proof.
  unfold readBuffer. rewrite length_app.
  destruct (decide _) as [_|Hn]; [|lia].
  now rewrite take_app_length, drop_app_length.
Qed.

Lemma readUInt_writeUIntLE (n : nat) (v : Z) (rest : Buffer) :
  0 <= v < 256 ^ Z.of_nat n ->
  readUInt n (writeUIntLE n v ++ rest) = Some (v, rest).
Proof.
  intros Hv. unfold readUInt, bind, ret.
  rewrite <- (length_writeUIntLE n v) at 1.
  rewrite readBuffer_app. now rewrite readUIntLE_writeUIntLE.
Qed.

Lemma toSigned64_mod (z : Z) :
  - 2 ^ 63 <= z < 2 ^ 63 -> toSigned64 (z mod 2 ^ 64) = z.
Proof.
  intros Hz. unfold toSigned64.
  change (2 ^ 64) with 18446744073709551616 in *.
  change (2 ^ 63) with 9223372036854775808 in *.
  destruct (Z_lt_dec z 0) as [Hneg|Hpos].
  - replace (z mod 18446744073709551616) with (z + 18446744073709551616).
    + destruct (decide _); lia.
    + apply Z.mod_unique with (q := -1); lia.
  - rewrite Z.mod_small by lia. destruct (decide _); lia.
Qed.

#[local] Opaque writeUIntLE.

(** A field that was written is read back, and the reader stops exactly
    where the writer did. *)
Lemma deserializeField_serializeField ft v b rest :
  serializeField ft v = Some b ->
  deserializeField ft (b ++ rest) = Some (v, rest).
Proof.
  destruct ft, v; cbn [serializeField]; try discriminate;
    intros Hs; destruct (decide _) as [Hr|]; try discriminate;
    injection Hs as <-; cbn [deserializeField].
  - unfold bind, ret. subst n. now rewrite readBuffer_app.
  - unfold bind at 1. rewrite readUInt_writeUIntLE; [reflexivity|].
    change (256 ^ Z.of_nat 1) with (2 ^ 8). exact Hr.
  - unfold bind at 1. rewrite readUInt_writeUIntLE; [reflexivity|].
    change (256 ^ Z.of_nat 8) with (2 ^ 64). exact Hr.
  - unfold bind at 1, writeBigInt64LE. rewrite readUInt_writeUIntLE.
    + unfold ret. now rewrite toSigned64_mod.
    + change (256 ^ Z.of_nat 8) with (2 ^ 64).
      apply Z.mod_pos_bound. reflexivity.
  - rewrite <- app_assoc. unfold bind at 1.
    rewrite readUInt_writeUIntLE.
    + unfold bind, ret. rewrite Nat2Z.id, readBuffer_app.
      unfold Buffer_from_utf8.
      now rewrite String.string_of_list_byte_of_string.
    + change (256 ^ Z.of_nat 4) with (2 ^ 32). lia.
Qed.
#[local] Transparent writeUIntLE.

(** An object that was written is read back field by field: the object
    read holds, under each name of the schema, what the written one held. *)
Lemma deserializeStruct_serializeStruct fields obj bs rest :
  serializeStruct fields obj = Some bs ->
  exists obj',
    deserializeStruct fields (bs ++ rest) = Some (obj', rest) /\
    forall name, name ∈ fields.*1 -> obj' !! name = obj !! name.
Proof.
  revert bs. induction fields as [|[fieldName fieldType] fields IH];
    intros bs Hs; cbn [serializeStruct deserializeStruct] in *.
  - injection Hs as <-. exists ∅. split; [reflexivity|].
    intros name Hin. cbn in Hin. now apply elem_of_nil in Hin.
  - destruct (obj !! fieldName) as [v|] eqn:Ev; [|discriminate].
    cbn in Hs.
    destruct (serializeField fieldType v) as [b|] eqn:Eb; [|discriminate].
    cbn in Hs.
    destruct (serializeStruct fields obj) as [bs'|] eqn:Es; [|discriminate].
    cbn in Hs. injection Hs as <-.
    destruct (IH bs' eq_refl) as (obj' & Hd & Hl).
    exists (<[fieldName := v]> obj'). split.
    + rewrite <- app_assoc. unfold bind at 1.
      rewrite (deserializeField_serializeField _ _ _ _ Eb).
      unfold bind, ret. now rewrite Hd.
    + intros name Hin. cbn in Hin. apply elem_of_cons in Hin.
      destruct (decide (name = fieldName)) as [->|Hne].
      * now rewrite lookup_insert_eq.
      * rewrite lookup_insert_ne by congruence.
        destruct Hin as [?|Hin]; [congruence|]. now apply Hl.
Qed.

Lemma deserialize_serializeStruct fields obj bs :
  serializeStruct fields obj = Some bs ->
  exists obj',
    deserialize fields bs = Some obj' /\
    forall name, name ∈ fields.*1 -> obj' !! name = obj !! name.
Proof.
  intros Hs.
  destruct (deserializeStruct_serializeStruct fields obj bs [] Hs)
    as (obj' & Hd & Hl).
  exists obj'. split; [|exact Hl].
  unfold deserialize. rewrite app_nil_r in Hd. now rewrite Hd.
Qed.

(** *** Writing inverts reading *)

Lemma readBuffer_Some (n : nat) (buf b rest : Buffer) :
  readBuffer n buf = Some (b, rest) -> length b = n /\ buf = b ++ rest.
Proof.
  unfold readBuffer. destruct (decide _) as [Hn|]; [|discriminate].
  intros [= <- <-]. split; [now apply length_take_le|].
  now rewrite take_drop.
Qed.

Lemma readUInt_Some (n : nat) (buf : Buffer) (z : Z) (rest : Buffer) :
  readUInt n buf = Some (z, rest) ->
  exists b, length b = n /\ buf = b ++ rest /\ z = readUIntLE b.
Proof.
  unfold readUInt, bind, ret.
  destruct (readBuffer n buf) as [[b rest']|] eqn:E; [|discriminate].
  intros [= <- <-]. destruct (readBuffer_Some _ _ _ _ E) as (Hl & Hb).
  now exists b.
Qed.

Lemma toSigned64_range (u : Z) :
  0 <= u < 2 ^ 64 ->
  - 2 ^ 63 <= toSigned64 u < 2 ^ 63 /\ toSigned64 u mod 2 ^ 64 = u.
Proof.
  intros Hu. unfold toSigned64.
  change (2 ^ 64) with 18446744073709551616 in *.
  change (2 ^ 63) with 9223372036854775808 in *.
  destruct (decide _) as [Hlt|Hge].
  - split; [lia|]. apply Z.mod_small. lia.
  - split; [lia|]. symmetry. apply Z.mod_unique with (q := -1); lia.
Qed.

(** A field that was read is the one whose writing stands at the head of
    the buffer. *)
Lemma serializeField_deserializeField ft buf v rest :
  deserializeField ft buf = Some (v, rest) ->
  exists b, serializeField ft v = Some b /\ buf = b ++ rest.
Proof.
  destruct ft; cbn [deserializeField]; unfold bind at 1.
  - destruct (readBuffer n buf) as [[b rest']|] eqn:E; [|discriminate].
    unfold ret. intros [= <- <-].
    destruct (readBuffer_Some _ _ _ _ E) as (Hl & Hb).
    exists b. cbn [serializeField]. now rewrite decide_True.
  - destruct (readUInt 1 buf) as [[z rest']|] eqn:E; [|discriminate].
    unfold ret. intros [= <- <-].
    destruct (readUInt_Some _ _ _ _ E) as (b & Hl & Hb & ->).
    exists b. cbn [serializeField].
    pose proof (readUIntLE_range b) as Hr. rewrite Hl in Hr.
    change (256 ^ Z.of_nat 1) with (2 ^ 8) in Hr.
    rewrite decide_True by exact Hr.
    now rewrite <- Hl, writeUIntLE_readUIntLE.
  - destruct (readUInt 8 buf) as [[z rest']|] eqn:E; [|discriminate].
    unfold ret. intros [= <- <-].
    destruct (readUInt_Some _ _ _ _ E) as (b & Hl & Hb & ->).
    exists b. cbn [serializeField].
    pose proof (readUIntLE_range b) as Hr. rewrite Hl in Hr.
    change (256 ^ Z.of_nat 8) with (2 ^ 64) in Hr.
    rewrite decide_True by exact Hr.
    now rewrite <- Hl, writeUIntLE_readUIntLE.
  - destruct (readUInt 8 buf) as [[z rest']|] eqn:E; [|discriminate].
    unfold ret. intros [= <- <-].
    destruct (readUInt_Some _ _ _ _ E) as (b & Hl & Hb & ->).
    exists b. cbn [serializeField].
    pose proof (readUIntLE_range b) as Hr. rewrite Hl in Hr.
    change (256 ^ Z.of_nat 8) with (2 ^ 64) in Hr.
    destruct (toSigned64_range _ Hr) as (Hs & Hm).
    rewrite decide_True by exact Hs.
    unfold writeBigInt64LE. rewrite Hm.
    now rewrite <- Hl, writeUIntLE_readUIntLE.
  - destruct (readUInt 4 buf) as [[len buf1]|] eqn:E; [|discriminate].
    unfold bind at 1.
    destruct (readBuffer (Z.to_nat len) buf1) as [[b rest']|] eqn:E';
      [|discriminate].
    unfold ret. intros [= <- <-].
    destruct (readUInt_Some _ _ _ _ E) as (lb & Hl & Hb & ->).
    destruct (readBuffer_Some _ _ _ _ E') as (Hl' & Hb').
    pose proof (readUIntLE_range lb) as Hr. rewrite Hl in Hr.
    change (256 ^ Z.of_nat 4) with (2 ^ 32) in Hr.
    exists (lb ++ b). cbn [serializeField]. unfold Buffer_from_utf8.
    rewrite String.list_byte_of_string_of_list_byte.
    rewrite Hl', Z2Nat.id by lia.
    rewrite decide_True by lia.
    rewrite <- Hl at 1. rewrite writeUIntLE_readUIntLE.
    split; [reflexivity|]. now rewrite <- app_assoc, <- Hb'.
Qed.

(** Writing an object looks only at the fields the schema names. *)
Lemma serializeStruct_ext fields (o1 o2 : gmap string Value) :
  (forall name, name ∈ fields.*1 -> o1 !! name = o2 !! name) ->
  serializeStruct fields o1 = serializeStruct fields o2.
Proof.
  induction fields as [|[fieldName fieldType] fields IH]; intros Hl;
    [reflexivity|].
  cbn [serializeStruct].
  rewrite (Hl fieldName) by (cbn; apply list_elem_of_here).
  rewrite IH; [reflexivity|].
  intros name Hin. apply Hl. cbn. now apply list_elem_of_further.
Qed.

Lemma serializeStruct_deserializeStruct fields buf obj rest :
  NoDup fields.*1 ->
  deserializeStruct fields buf = Some (obj, rest) ->
  exists b, serializeStruct fields obj = Some b /\ buf = b ++ rest.
Proof.
  revert buf obj. induction fields as [|[fieldName fieldType] fields IH];
    intros buf obj Hnd; cbn [deserializeStruct serializeStruct].
  - unfold ret. intros [= <- <-]. now exists [].
  - cbn in Hnd. apply NoDup_cons in Hnd as [Hnotin Hnd].
    unfold bind at 1.
    destruct (deserializeField fieldType buf) as [[v buf1]|] eqn:Ef;
      [|discriminate].
    unfold bind at 1.
    destruct (deserializeStruct fields buf1) as [[obj' rest']|] eqn:Es;
      [|discriminate].
    unfold ret. intros [= <- <-].
    destruct (serializeField_deserializeField _ _ _ _ Ef) as (b & Hb & ->).
    destruct (IH _ _ Hnd Es) as (b' & Hb' & ->).
    exists (b ++ b'). split; [|now rewrite app_assoc].
    rewrite lookup_insert_eq. cbn [mbind option_bind]. rewrite Hb.
    cbn [mbind option_bind].
    rewrite (serializeStruct_ext fields _ obj'), Hb'; [reflexivity|].
    intros name Hin. apply lookup_insert_ne. congruence.
Qed.

End BorshFacts.

(** ** The Payment account layout *)

Lemma Payment_object_lookup (r : Payment) :
  Payment_object r !! "payer" = Some (Borsh.VBytes (payer r)) /\
  Payment_object r !! "recipient" = Some (Borsh.VBytes (recipient r)) /\
  Payment_object r !! "amount" = Some (Borsh.VInt (amount r)) /\
  Payment_object r !! "payment_id" = Some (Borsh.VString (payment_id r)) /\
  Payment_object r !! "status" = Some (Borsh.VInt (status r)) /\
  Payment_object r !! "timestamp" = Some (Borsh.VInt (timestamp r)).
Proof. repeat split; reflexivity. Qed.

Lemma valid_status_range (r : Payment) :
  valid_Payment r -> 0 <= status r < 2 ^ 8.
Proof.
  intros (_ & _ & _ & _ & _ & Hs & _).
  unfold PaymentStatus.Pending, PaymentStatus.Completed,
    PaymentStatus.Cancelled in Hs.
  change (2 ^ 8) with 256. lia.
Qed.

(** The encoder accepts a valid record and writes its fields in order. *)
Lemma serialize_valid (r : Payment) :
  valid_Payment r ->
  serialize r
  = Some (payer r ++ recipient r ++ writeUIntLE 8 (amount r)
          ++ writeUIntLE 4 (Z.of_nat (length (Buffer_from_utf8 (payment_id r))))
          ++ Buffer_from_utf8 (payment_id r)
          ++ writeUIntLE 1 (status r) ++ writeBigInt64LE (timestamp r)).
Proof.
  intros Hv. pose proof (valid_status_range r Hv) as Hst.
  destruct Hv as (Hp & Hr & Ha & _ & Hl & _ & Ht).
  destruct (Payment_object_lookup r) as (Lp & Lr & La & Li & Ls & Lt).
  unfold serialize, PaymentSchema. cbn [Borsh.serializeStruct].
  rewrite Lp, Lr, La, Li, Ls, Lt. cbn [mbind option_bind].
  cbn [Borsh.serializeField].
  rewrite !decide_True by assumption.
  cbn [mbind option_bind].
  now rewrite <- !app_assoc, app_nil_r.
Qed.

(** The byte at place [i] of an integer written little-endian, inside a
    longer buffer: its value is digit [i] of the integer in base 256. *)
Lemma lookup_writeUIntLE_value (pre rest : Buffer) (n i k : nat) (v : Z) :
  length pre = k -> (i < n)%nat ->
  Z_of_byte <$> (pre ++ writeUIntLE n v ++ rest) !! (k + i)%nat
  = Some ((v / 256 ^ Z.of_nat i) mod 256).
Proof.
  intros Hk Hi. rewrite lookup_app_r by lia.
  replace (k + i - length pre)%nat with i by lia.
  rewrite lookup_app_l by (rewrite length_writeUIntLE; lia).
  rewrite writeUIntLE_lookup by exact Hi. cbn. f_equal.
  apply Z_of_byte_of_Z.
Qed.

(** C6. The encoding of a valid Payment record is its fields in schema
    order and nothing else. The payer is bytes 0 to 31 and the recipient
    bytes 32 to 63. The amount is 8 bytes from byte 64, little-endian: byte
    [64 + i] is digit [i] of the amount in base 256. The byte length of the
    payment id is 4 bytes from byte 72, little-endian, and its UTF-8 bytes
    follow from byte 76; these are the bytes the client's
    [serializeString] writes for the id. Then comes the status byte, and
    the timestamp as 8 bytes, little-endian two's complement: the digits of
    the timestamp modulo [2 ^ 64]. Nothing stands between the fields or
    after them. *)
Theorem serialize_layout (r : Payment) :
  valid_Payment r ->
  exists bs,
    serialize r = Some bs /\
    length bs = (32 + 32 + 8 + 4 + id_length r + 1 + 8)%nat /\
    take 32 bs = payer r /\
    take 32 (drop 32 bs) = recipient r /\
    (forall i, (i < 8)%nat ->
       Z_of_byte <$> bs !! (64 + i)%nat
       = Some ((amount r / 256 ^ Z.of_nat i) mod 256)) /\
    (forall i, (i < 4)%nat ->
       Z_of_byte <$> bs !! (72 + i)%nat
       = Some ((Z.of_nat (id_length r) / 256 ^ Z.of_nat i) mod 256)) /\
    take (id_length r) (drop 76 bs) = Buffer_from_utf8 (payment_id r) /\
    Z_of_byte <$> bs !! (76 + id_length r)%nat = Some (status r) /\
    (forall i, (i < 8)%nat ->
       Z_of_byte <$> bs !! (77 + id_length r + i)%nat
       = Some (((timestamp r mod 2 ^ 64) / 256 ^ Z.of_nat i) mod 256)) /\
    serializeString (payment_id r)
    = Return (take (4 + id_length r) (drop 72 bs)).
Proof.
  intros Hv. pose proof (valid_status_range r Hv) as Hst.
  eexists. split; [apply (serialize_valid r Hv)|].
  destruct Hv as (Hp & Hr & Ha & _ & Hl & _ & Ht).
  fold (id_length r) in *. set (n := id_length r) in *.
  assert (Hn : length (Buffer_from_utf8 (payment_id r)) = n) by reflexivity.
  assert (L : forall k v, length (writeUIntLE k v) = k)
    by (intros; apply length_writeUIntLE).
  split; [|split; [|split; [|split; [|split; [|split; [|split; [|split]]]]]]].
  - rewrite !length_app. unfold writeBigInt64LE. rewrite !L, Hp, Hr, Hn. lia.
  - now rewrite take_app_length' by exact (eq_sym Hp).
  - rewrite drop_app_length' by exact (eq_sym Hp).
    now rewrite take_app_length' by exact (eq_sym Hr).
  - intros i Hi. rewrite (app_assoc (payer r)).
    apply lookup_writeUIntLE_value; [rewrite length_app; lia | exact Hi].
  - intros i Hi. rewrite !(app_assoc _ _ (writeUIntLE 4 _ ++ _)).
    apply lookup_writeUIntLE_value; [rewrite !length_app, L; lia | exact Hi].
  - rewrite !(app_assoc _ _ (Buffer_from_utf8 _ ++ _)).
    rewrite drop_app_length' by (rewrite !length_app, !L; lia).
    now rewrite take_app_length' by exact (eq_sym Hn).
  - rewrite !(app_assoc _ _ (writeUIntLE 1 _ ++ _)).
    rewrite <- (Nat.add_0_r (76 + n)).
    rewrite (lookup_writeUIntLE_value _ _ 1 0 (76 + n))
      by (rewrite ?length_app, ?L; lia).
    f_equal. rewrite Z.div_1_r. apply Z.mod_small. exact Hst.
  - intros i Hi. rewrite !(app_assoc _ _ (writeBigInt64LE _)).
    unfold writeBigInt64LE.
    rewrite <- (app_nil_r (writeUIntLE 8 (timestamp r mod 2 ^ 64))).
    apply lookup_writeUIntLE_value;
      [rewrite !length_app, !L; lia | exact Hi].
  - unfold serializeString, writeUInt32LE. rewrite Hn.
    rewrite decide_True by lia.
    cbv [mbind Outcome_bind mret Outcome_ret Buffer_concat]. cbn [concat].
    rewrite app_nil_r. f_equal.
    rewrite !(app_assoc _ _ (writeUIntLE 4 _ ++ _)).
    rewrite drop_app_length' by (rewrite !length_app, L; lia).
    rewrite (app_assoc (writeUIntLE 4 _)).
    now rewrite take_app_length' by (rewrite length_app, L; lia).
Qed.

(** The record of "P-1", byte by byte: 01 (32 times), 02 (32 times),
    20 a1 07 00 00 00 00 00, 03 00 00 00, "P-1", 00,
    80 aa 02 69 00 00 00 00; and a timestamp of -2 is written
    fe ff ff ff ff ff ff ff. *)
Lemma serialize_layout_witness :
  valid_Payment Demo.payment /\
  serialize Demo.payment
  = Some [ x01; x01; x01; x01; x01; x01; x01; x01;
           x01; x01; x01; x01; x01; x01; x01; x01;
           x01; x01; x01; x01; x01; x01; x01; x01;
           x01; x01; x01; x01; x01; x01; x01; x01;
           x02; x02; x02; x02; x02; x02; x02; x02;
           x02; x02; x02; x02; x02; x02; x02; x02;
           x02; x02; x02; x02; x02; x02; x02; x02;
           x02; x02; x02; x02; x02; x02; x02; x02;
           x20; xa1; x07; x00; x00; x00; x00; x00;
           x03; x00; x00; x00; x50; x2d; x31;
           x00;
           x80; xaa; x02; x69; x00; x00; x00; x00 ] /\
  (exists bs,
      serialize Demo.backdated_payment = Some bs /\
      drop 80 bs = [xfe; xff; xff; xff; xff; xff; xff; xff]) /\
  exists bs,
    serialize Demo.payment = Some bs /\
    length bs = (32 + 32 + 8 + 4 + id_length Demo.payment + 1 + 8)%nat /\
    take 32 bs = payer Demo.payment /\
    take 32 (drop 32 bs) = recipient Demo.payment /\
    (forall i, (i < 8)%nat ->
       Z_of_byte <$> bs !! (64 + i)%nat
       = Some ((amount Demo.payment / 256 ^ Z.of_nat i) mod 256)) /\
    (forall i, (i < 4)%nat ->
       Z_of_byte <$> bs !! (72 + i)%nat
       = Some ((Z.of_nat (id_length Demo.payment) / 256 ^ Z.of_nat i)
               mod 256)) /\
    take (id_length Demo.payment) (drop 76 bs)
    = Buffer_from_utf8 (payment_id Demo.payment) /\
    Z_of_byte <$> bs !! (76 + id_length Demo.payment)%nat
    = Some (status Demo.payment) /\
    (forall i, (i < 8)%nat ->
       Z_of_byte <$> bs !! (77 + id_length Demo.payment + i)%nat
       = Some (((timestamp Demo.payment mod 2 ^ 64) / 256 ^ Z.of_nat i)
               mod 256)) /\
    serializeString (payment_id Demo.payment)
    = Return (take (4 + id_length Demo.payment) (drop 72 bs)).
Proof.
  assert (Hv : valid_Payment Demo.payment).
  { unfold valid_Payment. simpl. repeat split; lia. }
  split; [exact Hv|]. split; [vm_compute; reflexivity|].
  split; [eexists; split; vm_compute; reflexivity|].
  exact (serialize_layout Demo.payment Hv).
Defined.

(** C3. Decoding the encoding of a valid Payment record gives the record
    back: the encoder accepts every valid record, and the decoder applied to
    its output returns that record. *)
Theorem deserialize_serialize (r : Payment) :
  valid_Payment r ->
  exists bs, serialize r = Some bs /\ deserialize bs = Some r.
Proof.
  intros Hv. pose proof (serialize_valid r Hv) as Hs.
  eexists. split; [exact Hs|].
  destruct (BorshFacts.deserialize_serializeStruct _ _ _ Hs) as (obj & Hd & Hl).
  unfold deserialize. rewrite Hd. cbn [mbind option_bind].
  destruct (Payment_object_lookup r) as (Lp & Lr & La & Li & Ls & Lt).
  unfold new_Payment.
  rewrite !Hl by (unfold PaymentSchema; cbn; set_solver).
  rewrite Lp, Lr, La, Li, Ls, Lt. now destruct r.
Qed.

Lemma deserialize_serialize_witness :
  valid_Payment Demo.payment /\
  exists bs,
    serialize Demo.payment = Some bs /\ deserialize bs = Some Demo.payment.
Proof.
  assert (Hv : valid_Payment Demo.payment).
  { unfold valid_Payment. simpl. repeat split; lia. }
  split; [exact Hv | exact (deserialize_serialize Demo.payment Hv)].
Defined.

(** ** The client, step by step *)

Section ClientFacts.
Context `{Web3} `{BorshPackage}.
Variable this : PaymentProtocolClient.

(** A handler that rethrows leaves the body as it is. *)
Lemma try_catch_rethrow {A} (body : Client A) (w : World) :
  try_catch body (fun error => throw error) w = body w.
Proof.
  unfold try_catch, throw. destruct (body w) as [[a|e] w']; reflexivity.
Qed.

(** [getPayment] in direct style: it never throws and never writes. *)
Lemma getPayment_run (payer_ : PublicKey) (paymentId : string) (w : World) :
  getPayment this payer_ paymentId w
  = (Return
       match getPaymentPDA this payer_ paymentId with
       | Throw _ => None
       | Return (paymentPDA, _) =>
           match ledger w !! paymentPDA with
           | None => None
           | Some info => decoded (account_data info)
           end
       end, w).
Proof.
  cbv [getPayment try_catch lift getAccountInfo throw decoded
       mbind Client_bind mret Client_ret].
  destruct (getPaymentPDA this payer_ paymentId) as [[pda bump]|e];
    [|reflexivity].
  destruct (ledger w !! pda) as [info|]; [|reflexivity].
  destruct (package_deserialize PaymentSchema (account_data info));
    reflexivity.
Qed.

Lemma initializePayment_run (payer_ : Keypair) (recipient_ : PublicKey)
    (amount_ : number) (paymentId : string) (w : World) :
  initializePayment this payer_ recipient_ amount_ paymentId w
  = if number_le_0 amount_ then (Throw InvalidAmount, w)
    else if bool_decide (paymentId = "") then (Throw InvalidPaymentId, w)
    else
      match getPaymentPDA this (publicKey payer_) paymentId with
      | Throw e => (Throw e, w)
      | Return (paymentPDA, _) =>
          match ledger w !! paymentPDA with
          | Some _ => (Throw (PaymentAlreadyExists paymentId), w)
          | None =>
              match serializeU64 amount_ with
              | Throw e => (Throw e, w)
              | Return amountBytes =>
                  match serializeString paymentId with
                  | Throw e => (Throw e, w)
                  | Return idBytes =>
                      sendAndConfirmTransaction
                        (initializeTransaction this payer_ paymentPDA recipient_
                           ([x00] ++ amountBytes ++ idBytes))
                        [payer_] (confirmOptions this) w
                  end
              end
          end
      end.
Proof.
  unfold initializePayment. rewrite try_catch_rethrow.
  destruct (number_le_0 amount_); [reflexivity|].
  assert (Hempty : (String.length paymentId =? 0)%nat
                   = bool_decide (paymentId = "")).
  { destruct paymentId; reflexivity. }
  rewrite Hempty, orb_diag.
  destruct (bool_decide (paymentId = "")); [reflexivity|].
  cbv [lift getAccountInfo throw mbind Client_bind mret Client_ret
       Outcome_bind Outcome_ret].
  destruct (getPaymentPDA this (publicKey payer_) paymentId)
    as [[pda bump]|e]; [|reflexivity].
  destruct (ledger w !! pda) as [info|]; [reflexivity|].
  destruct (serializeU64 amount_) as [amountBytes|e]; [|reflexivity].
  destruct (serializeString paymentId) as [idBytes|e]; [|reflexivity].
  unfold initializeTransaction, Transaction_add, new_Transaction,
    Buffer_concat. cbn [instructions app concat].
  rewrite app_nil_r.
  destruct (sendAndConfirmTransaction _ _ _ w) as [[sig|e] w']; reflexivity.
Qed.

Lemma completePayment_run (payer_ : Keypair) (recipient_ : PublicKey)
    (paymentId : string) (w : World) :
  completePayment this payer_ recipient_ paymentId w
  = match getPaymentPDA this (publicKey payer_) paymentId with
    | Throw e => (Throw e, w)
    | Return (paymentPDA, _) =>
        match ledger w !! paymentPDA with
        | None => (Throw (PaymentNotFound paymentId), w)
        | Some info =>
            match decoded (account_data info) with
            | None => (Throw (PaymentNotFound paymentId), w)
            | Some payment =>
                if decide (status payment ≠ PaymentStatus.Pending)
                then (Throw (InvalidStateTransition (status payment)
                               "complete"), w)
                else
                  sendAndConfirmTransaction
                    (completeTransaction this payer_ paymentPDA recipient_)
                    [payer_] (confirmOptions this) w
            end
        end
    end.
Proof.
  unfold completePayment. rewrite try_catch_rethrow.
  unfold mbind at 1. unfold Client_bind at 1. unfold lift at 1.
  destruct (getPaymentPDA this (publicKey payer_) paymentId)
    as [[pda bump]|e] eqn:Epda; [|reflexivity].
  unfold mbind at 1. unfold Client_bind at 1.
  rewrite getPayment_run, Epda.
  destruct (ledger w !! pda) as [info|]; [|reflexivity].
  destruct (decoded (account_data info)) as [payment|]; [|reflexivity].
  destruct (decide (status payment ≠ PaymentStatus.Pending));
    [reflexivity|].
  cbv [mbind Client_bind mret Client_ret].
  unfold completeTransaction, Transaction_add, new_Transaction.
  cbn [instructions app].
  destruct (sendAndConfirmTransaction _ _ _ w) as [[sig|e] w']; reflexivity.
Qed.

Lemma cancelPayment_run (payer_ : Keypair) (paymentId : string) (w : World) :
  cancelPayment this payer_ paymentId w
  = match getPaymentPDA this (publicKey payer_) paymentId with
    | Throw e => (Throw e, w)
    | Return (paymentPDA, _) =>
        match ledger w !! paymentPDA with
        | None => (Throw (PaymentNotFound paymentId), w)
        | Some info =>
            match decoded (account_data info) with
            | None => (Throw (PaymentNotFound paymentId), w)
            | Some payment =>
                if decide (status payment ≠ PaymentStatus.Pending)
                then (Throw (InvalidStateTransition (status payment)
                               "cancel"), w)
                else
                  sendAndConfirmTransaction
                    (cancelTransaction this payer_ paymentPDA)
                    [payer_] (confirmOptions this) w
            end
        end
    end.
Proof.
  unfold cancelPayment. rewrite try_catch_rethrow.
  unfold mbind at 1. unfold Client_bind at 1. unfold lift at 1.
  destruct (getPaymentPDA this (publicKey payer_) paymentId)
    as [[pda bump]|e] eqn:Epda; [|reflexivity].
  unfold mbind at 1. unfold Client_bind at 1.
  rewrite getPayment_run, Epda.
  destruct (ledger w !! pda) as [info|]; [|reflexivity].
  destruct (decoded (account_data info)) as [payment|]; [|reflexivity].
  destruct (decide (status payment ≠ PaymentStatus.Pending));
    [reflexivity|].
  cbv [mbind Client_bind mret Client_ret].
  unfold cancelTransaction, Transaction_add, new_Transaction.
  cbn [instructions app].
  destruct (sendAndConfirmTransaction _ _ _ w) as [[sig|e] w']; reflexivity.
Qed.

(** What one call of [sendAndConfirmTransaction] hands over. *)
Lemma sent_sendAndConfirmTransaction (t : Transaction)
    (signers : list Keypair) (options : string) (w : World) :
  sent (sendAndConfirmTransaction t signers options) w = [(t, signers)].
Proof.
  unfold sent, sendAndConfirmTransaction.
  destruct (execute (ledger w) t signers options) as [result l'].
  cbn [snd submitted]. now rewrite drop_app_length.
Qed.

(** A computation that ends in the world it started in hands over nothing. *)
Lemma sent_unchanged {A} (c : Client A) (w : World) (o : Outcome A) :
  c w = (o, w) -> sent c w = [].
Proof.
  intros E. unfold sent. rewrite E. cbn [snd]. apply drop_all.
Qed.

End ClientFacts.

(** ** The derived address *)

Lemma byte_enum_NoDup : NoDup byte_enum.
Proof. apply (bool_decide_unpack _). vm_compute. exact I. Qed.

Lemma byte_enum_complete (b : byte) : b ∈ byte_enum.
Proof. destruct b; apply (bool_decide_unpack _); vm_compute; exact I. Qed.

#[global] Instance byte_finite : finite.Finite byte :=
  {| enum := byte_enum;
     NoDup_enum := byte_enum_NoDup;
     elem_of_enum := byte_enum_complete |}.









(** ** Reading a payment *)

(** C10. [getPayment] never throws: it returns, leaves the world as it was,
    and the value it returns is null when no account exists at the derived
    address and also when [deserialize] throws on the account's bytes, so
    the caller cannot tell the two apart. [paymentExists] returns false, and
    [getPaymentStatus] returns null, exactly when [getPayment] returns
    null. *)
Theorem getPayment_never_throws `{Web3} `{BorshPackage}
    (this : PaymentProtocolClient) (payer_ : PublicKey) (paymentId : string)
    (w : World) :
  exists payment : option Payment,
    getPayment this payer_ paymentId w = (Return payment, w) /\
    (forall paymentPDA bump,
        getPaymentPDA this payer_ paymentId = Return (paymentPDA, bump) ->
        ledger w !! paymentPDA = None -> payment = None) /\
    (forall paymentPDA bump info e,
        getPaymentPDA this payer_ paymentId = Return (paymentPDA, bump) ->
        ledger w !! paymentPDA = Some info ->
        package_deserialize PaymentSchema (account_data info) = Throw e ->
        payment = None) /\
    (paymentExists this payer_ paymentId w = (Return false, w)
     <-> payment = None) /\
    (getPaymentStatus this payer_ paymentId w = (Return None, w)
     <-> payment = None) /\
    (exists exists_ status_,
        paymentExists this payer_ paymentId w = (Return exists_, w) /\
        getPaymentStatus this payer_ paymentId w = (Return status_, w)).
Proof.
  eexists. split; [apply getPayment_run|].
  split; [|split; [|split; [|split]]].
  - intros pda bump -> ->. reflexivity.
  - intros pda bump info e -> -> Ed. unfold decoded. now rewrite Ed.
  - unfold paymentExists. cbv [mbind Client_bind mret Client_ret].
    rewrite getPayment_run.
    destruct (getPaymentPDA this payer_ paymentId) as [[pda bump]|e];
      [|tauto].
    destruct (ledger w !! pda) as [info|]; [|tauto].
    destruct (decoded (account_data info)); [|tauto].
    split; intros E; discriminate E.
  - unfold getPaymentStatus. cbv [mbind Client_bind mret Client_ret].
    rewrite getPayment_run.
    destruct (getPaymentPDA this payer_ paymentId) as [[pda bump]|e];
      [|tauto].
    destruct (ledger w !! pda) as [info|]; [|tauto].
    destruct (decoded (account_data info)); [|tauto].
    split; intros E; discriminate E.
  - unfold paymentExists, getPaymentStatus.
    cbv [mbind Client_bind mret Client_ret]. rewrite getPayment_run.
    eexists _, _. split; reflexivity.
Qed.

(** No account for "P-1", or bytes there that are no Payment: the caller
    of [getPayment] sees null either way. *)
Lemma getPayment_never_throws_witness :
  getPayment Demo.client (publicKey Demo.alice) "P-1" Demo.empty_world
  = (Return None, Demo.empty_world) /\
  getPayment Demo.client (publicKey Demo.alice) "P-1" Demo.malformed_world
  = (Return None, Demo.malformed_world).
Proof.
  assert (Epda : getPaymentPDA Demo.client (publicKey Demo.alice) "P-1"
                 = Return (Demo.pda, 255)) by reflexivity.
  split.
  - destruct (getPayment_never_throws Demo.client (publicKey Demo.alice)
                "P-1" Demo.empty_world) as (payment & Erun & Hnone & _).
    rewrite Erun, (Hnone Demo.pda 255 Epda); [reflexivity|].
    vm_compute. reflexivity.
  - destruct (getPayment_never_throws Demo.client (publicKey Demo.alice)
                "P-1" Demo.malformed_world)
      as (payment & Erun & _ & Hbad & _).
    rewrite Erun, (Hbad Demo.pda 255 Demo.malformed_account
                     (BorshError "Reached the end of buffer") Epda);
      [reflexivity | |]; vm_compute; reflexivity.
Defined.

(** ** Rejections by the client, before anything is sent *)

Lemma number_le_0_Finite (q : Q) :
  number_le_0 (Finite q) = true <-> (q <= 0)%Q.
Proof. apply Qle_bool_iff. Qed.

(** C9, as the code has it. An Initialize whose amount is [<= 0] fails with
    InvalidAmount; an Initialize whose amount is not [<= 0] and whose payment
    id is empty fails with InvalidPaymentId. Either way the world is left as
    it was: nothing is submitted and no account is created or changed. (The
    amount is checked first, so a call with both faults reports the
    amount.) *)
Theorem initializePayment_rejects_bad_input `{Web3}
    (this : PaymentProtocolClient) (payer_ : Keypair) (recipient_ : PublicKey)
    (amount_ : number) (paymentId : string) (w : World) :
  (number_le_0 amount_ = true ->
   initializePayment this payer_ recipient_ amount_ paymentId w
   = (Throw InvalidAmount, w)) /\
  (number_le_0 amount_ = false -> paymentId = "" ->
   initializePayment this payer_ recipient_ amount_ paymentId w
   = (Throw InvalidPaymentId, w)).
Proof.
  split.
  - intros Ha. rewrite initializePayment_run, Ha. reflexivity.
  - intros Ha ->. rewrite initializePayment_run, Ha. reflexivity.
Qed.

Lemma initializePayment_rejects_bad_input_witness :
  initializePayment Demo.client Demo.alice Demo.bob (Finite 0) "P-1"
    Demo.empty_world = (Throw InvalidAmount, Demo.empty_world) /\
  initializePayment Demo.client Demo.alice Demo.bob (Finite (500000 # 1)) ""
    Demo.empty_world = (Throw InvalidPaymentId, Demo.empty_world).
Proof.
  split.
  - exact (proj1 (initializePayment_rejects_bad_input Demo.client Demo.alice
                    Demo.bob (Finite 0) "P-1" Demo.empty_world) eq_refl).
  - exact (proj2 (initializePayment_rejects_bad_input Demo.client Demo.alice
                    Demo.bob (Finite (500000 # 1)) "" Demo.empty_world)
             eq_refl eq_refl).
Defined.

(** An Initialize with amount 0 and an empty payment id fails with
    InvalidAmount, not with InvalidPaymentId. *)
Lemma initializePayment_empty_id_zero_amount :
  fst (initializePayment Demo.client Demo.alice Demo.bob (Finite 0) ""
         Demo.empty_world) = Throw InvalidAmount /\
  @Throw string InvalidAmount <> Throw InvalidPaymentId.
Proof.
  split; [reflexivity | discriminate].
Qed.

(** C8, as the code has it. When no account exists at the address derived
    for (payer, payment id), Complete and Cancel fail with PaymentNotFound.
    When the derivation itself throws, as web3.js does for a payment id of
    more than 32 bytes, they fail with the derivation's error instead.
    Either way the world is left as it was: nothing is submitted, every
    record and every balance stays. *)
Theorem complete_cancel_rejected `{Web3} `{BorshPackage}
    (this : PaymentProtocolClient) (payer_ : Keypair) (recipient_ : PublicKey)
    (paymentId : string) (w : World) :
  (forall paymentPDA bump,
      getPaymentPDA this (publicKey payer_) paymentId
      = Return (paymentPDA, bump) ->
      ledger w !! paymentPDA = None ->
      completePayment this payer_ recipient_ paymentId w
      = (Throw (PaymentNotFound paymentId), w) /\
      cancelPayment this payer_ paymentId w
      = (Throw (PaymentNotFound paymentId), w)) /\
  (forall e,
      getPaymentPDA this (publicKey payer_) paymentId = Throw e ->
      completePayment this payer_ recipient_ paymentId w = (Throw e, w) /\
      cancelPayment this payer_ paymentId w = (Throw e, w)).
Proof.
  rewrite completePayment_run, cancelPayment_run. split.
  - intros pda bump -> ->. split; reflexivity.
  - intros e ->. split; reflexivity.
Qed.

(** "P-1" was never initialized: not found. A never initialized id of 34
    bytes, under the derivation that bounds its seeds: the TypeError of the
    derivation. *)
Lemma complete_cancel_rejected_witness :
  (completePayment Demo.client Demo.alice Demo.bob "P-1" Demo.empty_world
   = (Throw (PaymentNotFound "P-1"), Demo.empty_world) /\
   cancelPayment Demo.client Demo.alice "P-1" Demo.empty_world
   = (Throw (PaymentNotFound "P-1"), Demo.empty_world)) /\
  (@completePayment Strict.web3 Demo.package Demo.client Demo.alice Demo.bob
     Strict.long_id Demo.empty_world
   = (Throw (TypeError "Max seed length exceeded"), Demo.empty_world) /\
   @cancelPayment Strict.web3 Demo.package Demo.client Demo.alice
     Strict.long_id Demo.empty_world
   = (Throw (TypeError "Max seed length exceeded"), Demo.empty_world)).
Proof.
  split.
  - apply (proj1 (complete_cancel_rejected Demo.client Demo.alice Demo.bob
                    "P-1" Demo.empty_world) Demo.pda 255).
    + reflexivity.
    + vm_compute. reflexivity.
  - apply (proj2 (@complete_cancel_rejected Strict.web3 Demo.package
                    Demo.client Demo.alice Demo.bob Strict.long_id
                    Demo.empty_world)).
    reflexivity.
Defined.

(** Two inputs on which the claim as written fails. A payment id of 34
    bytes that was never initialized: Complete fails with the TypeError of
    the derivation, not with PaymentNotFound. A record for "P-1" whose
    status is Completed, read with the package as the client finds it:
    Complete and Cancel fail with PaymentNotFound, not with
    InvalidStateTransition. *)
Lemma complete_cancel_other_errors :
  (ledger Demo.empty_world !! Demo.pda = None /\
   fst (@completePayment Strict.web3 Demo.package Demo.client Demo.alice
          Demo.bob Strict.long_id Demo.empty_world)
   = Throw (TypeError "Max seed length exceeded") /\
   @Throw string (TypeError "Max seed length exceeded")
   <> Throw (PaymentNotFound Strict.long_id)) /\
  (ledger Demo.completed_world !! Demo.pda
   = Some (Demo.payment_account Demo.completed_payment) /\
   deserialize (account_data (Demo.payment_account Demo.completed_payment))
   = Some Demo.completed_payment /\
   status Demo.completed_payment = PaymentStatus.Completed /\
   fst (completePayment Demo.client Demo.alice Demo.bob "P-1"
          Demo.completed_world)
   = Throw (PaymentNotFound "P-1") /\
   fst (cancelPayment Demo.client Demo.alice "P-1" Demo.completed_world)
   = Throw (PaymentNotFound "P-1") /\
   PaymentNotFound "P-1"
   <> InvalidStateTransition PaymentStatus.Completed "complete" /\
   PaymentNotFound "P-1"
   <> InvalidStateTransition PaymentStatus.Completed "cancel").
Proof.
  split.
  - split; [vm_compute; reflexivity|]. split; [reflexivity | discriminate].
  - repeat split; try (vm_compute; reflexivity); discriminate.
Qed.

Lemma valid_payment_id_nonempty (r : Payment) :
  valid_Payment r -> payment_id r <> "".
Proof.
  intros (_ & _ & _ & Hl & _) E. rewrite E in Hl. simpl in Hl. lia.
Qed.

(** Whatever already sits at the derived address, an Initialize with valid
    inputs is refused by the client before anything is sent. *)
Lemma initializePayment_occupied `{Web3} (this : PaymentProtocolClient)
    (payer_ : Keypair) (recipient_ : PublicKey) (amount_ : number)
    (paymentId : string) (w : World) (paymentPDA : PublicKey) (bump : Z)
    (info : AccountInfo) :
  getPaymentPDA this (publicKey payer_) paymentId = Return (paymentPDA, bump) ->
  ledger w !! paymentPDA = Some info ->
  number_le_0 amount_ = false ->
  paymentId <> "" ->
  initializePayment this payer_ recipient_ amount_ paymentId w
  = (Throw (PaymentAlreadyExists paymentId), w).
Proof.
  intros Epda El Ha Hid. rewrite initializePayment_run, Ha.
  rewrite bool_decide_eq_false_2 by exact Hid.
  now rewrite Epda, El.
Qed.

(** C7, as the code has it. Let a valid Payment record for
    (payer, payment id) exist at the derived address. A second Initialize
    with the same pair fails and leaves the world as it was: nothing is
    submitted, no funds move, the record stays. It fails with
    PaymentAlreadyExists when its amount is not [<= 0]; an amount [<= 0] is
    refused first, with InvalidAmount. *)
Theorem initializePayment_twice `{Web3} (this : PaymentProtocolClient)
    (payer_ : Keypair) (recipient_ : PublicKey) (amount_ : number)
    (paymentId : string) (w : World) (paymentPDA : PublicKey) (bump : Z)
    (info : AccountInfo) (record : Payment) :
  getPaymentPDA this (publicKey payer_) paymentId = Return (paymentPDA, bump) ->
  ledger w !! paymentPDA = Some info ->
  deserialize (account_data info) = Some record ->
  valid_Payment record ->
  payment_id record = paymentId ->
  (number_le_0 amount_ = false ->
   initializePayment this payer_ recipient_ amount_ paymentId w
   = (Throw (PaymentAlreadyExists paymentId), w)) /\
  (number_le_0 amount_ = true ->
   initializePayment this payer_ recipient_ amount_ paymentId w
   = (Throw InvalidAmount, w)).
Proof.
  intros Epda El _ Hv Hid. split.
  - intros Ha. apply (initializePayment_occupied _ _ _ _ _ _ _ _ _ Epda El Ha).
    rewrite <- Hid. now apply valid_payment_id_nonempty.
  - intros Ha. rewrite initializePayment_run, Ha. reflexivity.
Qed.

Lemma demo_payment_valid : valid_Payment Demo.payment.
Proof. unfold valid_Payment. simpl. repeat split; lia. Defined.

Lemma initializePayment_twice_witness :
  initializePayment Demo.client Demo.alice Demo.bob (Finite (500000 # 1))
    "P-1" Demo.pending_world
  = (Throw (PaymentAlreadyExists "P-1"), Demo.pending_world) /\
  initializePayment Demo.client Demo.alice Demo.carol (Finite (- 1 # 2))
    "P-1" Demo.pending_world
  = (Throw InvalidAmount, Demo.pending_world).
Proof.
  assert (Epda : getPaymentPDA Demo.client (publicKey Demo.alice) "P-1"
                 = Return (Demo.pda, 255)) by reflexivity.
  assert (El : ledger Demo.pending_world !! Demo.pda
               = Some (Demo.payment_account Demo.payment))
    by (vm_compute; reflexivity).
  assert (Ed : deserialize (account_data (Demo.payment_account Demo.payment))
               = Some Demo.payment) by (vm_compute; reflexivity).
  split.
  - exact (proj1 (initializePayment_twice Demo.client Demo.alice Demo.bob
                    (Finite (500000 # 1)) "P-1" Demo.pending_world Demo.pda
                    255 _ Demo.payment Epda El Ed demo_payment_valid eq_refl)
             eq_refl).
  - exact (proj2 (initializePayment_twice Demo.client Demo.alice Demo.carol
                    (Finite (- 1 # 2)) "P-1" Demo.pending_world Demo.pda
                    255 _ Demo.payment Epda El Ed demo_payment_valid eq_refl)
             eq_refl).
Defined.

(** A pending record exists for (alice, "P-1"), and a second Initialize for
    the same pair with amount 0 fails with InvalidAmount, not with
    PaymentAlreadyExists. *)
Lemma initializePayment_twice_zero_amount :
  getPaymentPDA Demo.client (publicKey Demo.alice) "P-1"
  = Return (Demo.pda, 255) /\
  ledger Demo.pending_world !! Demo.pda
  = Some (Demo.payment_account Demo.payment) /\
  deserialize (account_data (Demo.payment_account Demo.payment))
  = Some Demo.payment /\
  fst (initializePayment Demo.client Demo.alice Demo.bob (Finite 0) "P-1"
         Demo.pending_world) = Throw InvalidAmount /\
  @Throw string InvalidAmount <> Throw (PaymentAlreadyExists "P-1").
Proof.
  repeat split; try (vm_compute; reflexivity). discriminate.
Qed.

(** ** What the client sends *)

Lemma serializeU64_Return (value : number) (b : Buffer) :
  serializeU64 value = Return b ->
  exists a, BigInt value = Return a /\ 0 <= a < 2 ^ 64 /\ b = writeUIntLE 8 a.
Proof.
  unfold serializeU64. cbv [mbind Outcome_bind].
  destruct (BigInt value) as [a|e]; [|discriminate].
  unfold writeBigUInt64LE. destruct (decide _) as [Hr|]; [|discriminate].
  intros [= <-]. now exists a.
Qed.

Lemma serializeString_Return (value : string) (b : Buffer) :
  serializeString value = Return b ->
  Z.of_nat (length (Buffer_from_utf8 value)) < 2 ^ 32 /\
  b = writeUIntLE 4 (Z.of_nat (length (Buffer_from_utf8 value)))
      ++ Buffer_from_utf8 value.
Proof.
  unfold serializeString, writeUInt32LE. cbv [mbind Outcome_bind].
  destruct (decide _) as [Hr|]; [|discriminate].
  cbv [mret Outcome_ret Buffer_concat]. cbn [concat].
  rewrite app_nil_r. intros [= <-]. split; [lia | reflexivity].
Qed.

Section Sent.
Context `{Web3} `{BorshPackage}.
Variable this : PaymentProtocolClient.

(** The one transaction Initialize can send, and when. *)
Lemma sent_initializePayment (payer_ : Keypair) (recipient_ : PublicKey)
    (amount_ : number) (paymentId : string) (w : World)
    (t : Transaction) (signers : list Keypair) :
  In (t, signers)
     (sent (initializePayment this payer_ recipient_ amount_ paymentId) w) ->
  exists paymentPDA bump a,
    getPaymentPDA this (publicKey payer_) paymentId
    = Return (paymentPDA, bump) /\
    ledger w !! paymentPDA = None /\
    BigInt amount_ = Return a /\ 0 <= a < 2 ^ 64 /\
    signers = [payer_] /\
    t = initializeTransaction this payer_ paymentPDA recipient_
          ([x00] ++ writeUIntLE 8 a
           ++ writeUIntLE 4 (Z.of_nat (length (Buffer_from_utf8 paymentId)))
           ++ Buffer_from_utf8 paymentId).
Proof.
  pose proof (initializePayment_run this payer_ recipient_ amount_
                paymentId w) as Erun.
  destruct (number_le_0 amount_);
    [rewrite (sent_unchanged _ _ _ Erun); intros []|].
  destruct (bool_decide (paymentId = ""));
    [rewrite (sent_unchanged _ _ _ Erun); intros []|].
  destruct (getPaymentPDA this (publicKey payer_) paymentId)
    as [[pda bump]|e]; [|rewrite (sent_unchanged _ _ _ Erun); intros []].
  destruct (ledger w !! pda) as [info|] eqn:El;
    [rewrite (sent_unchanged _ _ _ Erun); intros []|].
  destruct (serializeU64 amount_) as [amountBytes|e] eqn:Ea;
    [|rewrite (sent_unchanged _ _ _ Erun); intros []].
  destruct (serializeString paymentId) as [idBytes|e] eqn:Ei;
    [|rewrite (sent_unchanged _ _ _ Erun); intros []].
  unfold sent at 1. rewrite Erun.
  fold (sent (sendAndConfirmTransaction
                (initializeTransaction this payer_ pda recipient_
                   ([x00] ++ amountBytes ++ idBytes))
                [payer_] (confirmOptions this)) w).
  rewrite sent_sendAndConfirmTransaction.
  intros [[= <- <-]|[]].
  destruct (serializeU64_Return _ _ Ea) as (a & Eb & Hr & ->).
  destruct (serializeString_Return _ _ Ei) as (_ & ->).
  exists pda, bump, a. repeat split; try assumption; lia.
Qed.



End Sent.





(** ** The processor's Complete *)

Section ProcessorFacts.
Variable derivePaymentAddress : PublicKey -> string -> option PublicKey.

(** A failed attempt leaves every balance and every record where it was. *)
Lemma attempt_error_unchanged (t : Ledger -> Processor.Result Ledger)
    (l : Ledger) (e : Processor.Error) :
  fst (Processor.attempt t l) = Some e -> snd (Processor.attempt t l) = l.
Proof.
  unfold Processor.attempt. destruct (t l); [discriminate | reflexivity].
Qed.

(** C1. Let a Payment record with stored recipient R sit at the address
    derived for (payer, payment id). A Complete presented with the payer's
    signing proof and a recipient argument other than R fails with
    RecipientMismatch; the ledger after the attempt is the ledger before it,
    so no balance has changed, and the record, with its status (Pending if
    it was Pending), is as it was. *)
Theorem complete_recipient_mismatch (l : Ledger) (payer_ supplied : PublicKey)
    (paymentId : string) (address : PublicKey) (account : AccountInfo)
    (record : Payment) :
  derivePaymentAddress payer_ paymentId = Some address ->
  l !! address = Some account ->
  deserialize (account_data account) = Some record ->
  supplied <> recipient record ->
  fst (Processor.attempt
         (Processor.Complete derivePaymentAddress true payer_ supplied
            paymentId) l) = Some Processor.RecipientMismatch /\
  snd (Processor.attempt
         (Processor.Complete derivePaymentAddress true payer_ supplied
            paymentId) l) = l /\
  (forall a,
      Processor.balance
        (snd (Processor.attempt
                (Processor.Complete derivePaymentAddress true payer_ supplied
                   paymentId) l)) a
      = Processor.balance l a) /\
  Processor.record_at
    (snd (Processor.attempt
            (Processor.Complete derivePaymentAddress true payer_ supplied
               paymentId) l)) address
  = Processor.Ok record.
Proof.
  intros Ed El Er Hne.
  assert (Ec : Processor.Complete derivePaymentAddress true payer_ supplied
                 paymentId l = Processor.Err Processor.RecipientMismatch).
  { unfold Processor.Complete, Processor.derive, Processor.record_at.
    rewrite Ed. cbn [mbind Processor.Result_bind]. rewrite El, Er.
    cbn [mbind Processor.Result_bind Processor.require].
    rewrite (bool_decide_eq_false_2 (supplied = recipient record))
      by exact Hne.
    reflexivity. }
  unfold Processor.attempt. rewrite Ec. cbn [fst snd].
  repeat split. unfold Processor.record_at. now rewrite El, Er.
Qed.

End ProcessorFacts.

(** Carol is named in place of bob, the recipient recorded for "P-1". *)
Lemma complete_recipient_mismatch_witness :
  Processor.attempt
    (Processor.Complete Demo.derivePaymentAddress true
       (publicKey Demo.alice) Demo.carol "P-1")
    (ledger Demo.pending_world)
  = (Some Processor.RecipientMismatch, ledger Demo.pending_world) /\
  Processor.record_at (ledger Demo.pending_world) Demo.pda
  = Processor.Ok Demo.payment /\
  status Demo.payment = PaymentStatus.Pending.
Proof.
  assert (Ed : Demo.derivePaymentAddress (publicKey Demo.alice) "P-1"
               = Some Demo.pda) by reflexivity.
  assert (El : ledger Demo.pending_world !! Demo.pda
               = Some (Demo.payment_account Demo.payment))
    by (vm_compute; reflexivity).
  assert (Er : deserialize (account_data (Demo.payment_account Demo.payment))
               = Some Demo.payment) by (vm_compute; reflexivity).
  assert (Hne : Demo.carol <> recipient Demo.payment) by discriminate.
  destruct (complete_recipient_mismatch Demo.derivePaymentAddress
              (ledger Demo.pending_world) (publicKey Demo.alice) Demo.carol
              "P-1" Demo.pda _ Demo.payment Ed El Er Hne)
    as (Hf & Hs & _ & Hrec).
  split; [|split; [|reflexivity]].
  - rewrite (surjective_pairing (Processor.attempt _ _)), Hf, Hs.
    reflexivity.
  - rewrite Hs in Hrec. exact Hrec.
Defined.

(** The scenarios of section 8, run on the processor: Initialize escrows
    the amount at the derived address; a Complete then pays the recipient and
    empties the escrow; a Complete after a Cancel is refused. *)
Example scenario_initialize_complete :
  let init :=
    Processor.Initialize (programId Demo.client) Demo.derivePaymentAddress 0
      1761782400 true (publicKey Demo.alice) Demo.bob 500000 "P-1" in
  let complete :=
    Processor.Complete Demo.derivePaymentAddress true (publicKey Demo.alice)
      Demo.bob "P-1" in
  let l1 := snd (Processor.attempt init Demo.genesis) in
  let l2 := snd (Processor.attempt complete l1) in
  fst (Processor.attempt init Demo.genesis) = None /\
  Processor.record_at l1 Demo.pda = Processor.Ok Demo.payment /\
  Processor.balance l1 (publicKey Demo.alice) = 2000000000 - 500000 /\
  Processor.balance l1 Demo.pda = 500000 /\
  fst (Processor.attempt init l1) = Some Processor.PaymentAlreadyExists /\
  fst (Processor.attempt complete l1) = None /\
  Processor.record_at l2 Demo.pda = Processor.Ok Demo.completed_payment /\
  Processor.balance l2 Demo.bob = 500000 /\
  Processor.balance l2 Demo.pda = 0 /\
  fst (Processor.attempt complete l2)
  = Some Processor.InvalidStateTransition.
Proof. vm_compute. repeat split; reflexivity. Qed.

Example scenario_cancel_complete :
  let init :=
    Processor.Initialize (programId Demo.client) Demo.derivePaymentAddress 0
      1761782400 true (publicKey Demo.alice) Demo.bob 500000 "P-1" in
  let cancel :=
    Processor.Cancel Demo.derivePaymentAddress true (publicKey Demo.alice)
      "P-1" in
  let complete :=
    Processor.Complete Demo.derivePaymentAddress true (publicKey Demo.alice)
      Demo.bob "P-1" in
  let l1 := snd (Processor.attempt init Demo.genesis) in
  let l2 := snd (Processor.attempt cancel l1) in
  fst (Processor.attempt cancel l1) = None /\
  Processor.balance l2 (publicKey Demo.alice) = 2000000000 /\
  Processor.balance l2 Demo.pda = 0 /\
  fst (Processor.attempt complete l2)
  = Some Processor.InvalidStateTransition /\
  fst (Processor.attempt complete Demo.genesis)
  = Some Processor.PaymentNotFound.
Proof. vm_compute. repeat split; reflexivity. Qed.

(** ** Further properties of the codec and the client *)

Lemma new_Payment_lookup (fields : gmap string Borsh.Value) (r : Payment) :
  new_Payment fields = Some r ->
  forall name, name ∈ PaymentSchema.*1 ->
               fields !! name = Payment_object r !! name.
Proof.
  unfold new_Payment.
  destruct (fields !! "payer") as [[p| |]|] eqn:Ep; try discriminate.
  destruct (fields !! "recipient") as [[c| |]|] eqn:Ec; try discriminate.
  destruct (fields !! "amount") as [[|a|]|] eqn:Ea; try discriminate.
  destruct (fields !! "payment_id") as [[| |i]|] eqn:Ei; try discriminate.
  destruct (fields !! "status") as [[|st|]|] eqn:Es; try discriminate.
  destruct (fields !! "timestamp") as [[|t|]|] eqn:Et; try discriminate.
  intros [= <-] name Hin.
  destruct (Payment_object_lookup
              {| payer := p; recipient := c; amount := a; payment_id := i;
                 status := st; timestamp := t |})
    as (Lp & Lr & La & Li & Ls & Lt).
  cbn [payer recipient amount payment_id status timestamp] in *.
  cbn in Hin.
  repeat (apply elem_of_cons in Hin as [->|Hin]); try congruence.
  now apply elem_of_nil in Hin.
Qed.

Lemma PaymentSchema_NoDup : NoDup PaymentSchema.*1.
Proof. apply (bool_decide_unpack _). vm_compute. exact I. Qed.

(** X1. Every buffer that decodes as a Payment is the encoding of the record
    it decodes to: a truncated or over-long buffer is refused, and no two
    buffers decode to the same record. *)
Theorem serialize_deserialize (bs : Buffer) (r : Payment) :
  deserialize bs = Some r -> serialize r = Some bs.
Proof.
  unfold deserialize, serialize, Borsh.deserialize.
  destruct (Borsh.deserializeStruct PaymentSchema bs) as [[obj rest]|] eqn:Ed;
    [|discriminate].
  destruct rest as [|x rest]; [|discriminate].
  cbn [mbind option_bind]. intros Hn.
  destruct (BorshFacts.serializeStruct_deserializeStruct _ _ _ _
              PaymentSchema_NoDup Ed) as (b & Hb & ->).
  rewrite app_nil_r. rewrite <- Hb.
  apply BorshFacts.serializeStruct_ext. intros name Hin. symmetry.
  now apply new_Payment_lookup.
Qed.

Lemma serialize_deserialize_witness :
  deserialize (Demo.payment_account Demo.payment).(account_data)
  = Some Demo.payment /\
  serialize Demo.payment
  = Some (Demo.payment_account Demo.payment).(account_data).
Proof.
  assert (Ed : deserialize (Demo.payment_account Demo.payment).(account_data)
               = Some Demo.payment) by (vm_compute; reflexivity).
  split; [exact Ed | exact (serialize_deserialize _ _ Ed)].
Defined.

Section Submissions.
Context `{Web3} `{BorshPackage}.
Variable this : PaymentProtocolClient.

(** X3. An Initialize whose amount passes the check [amount <= 0] but is no
    integer in the unsigned 64-bit range (a fraction, NaN, an infinity,
    [2 ^ 64] or more) is refused with a RangeError while its data is built:
    after the look-up of the derived address, before anything is sent. *)
Theorem initializePayment_amount_range (payer_ : Keypair)
    (recipient_ : PublicKey) (amount_ : number) (paymentId : string)
    (w : World) (paymentPDA : PublicKey) (bump : Z) :
  number_le_0 amount_ = false ->
  paymentId <> "" ->
  getPaymentPDA this (publicKey payer_) paymentId = Return (paymentPDA, bump) ->
  ledger w !! paymentPDA = None ->
  (forall a, BigInt amount_ = Return a -> ~ 0 <= a < 2 ^ 64) ->
  exists message,
    initializePayment this payer_ recipient_ amount_ paymentId w
    = (Throw (RangeError message), w).
Proof.
  intros Ha Hid Epda El Hr. rewrite initializePayment_run, Ha.
  rewrite bool_decide_eq_false_2 by exact Hid. rewrite Epda, El.
  unfold serializeU64. cbv [mbind Outcome_bind].
  destruct amount_ as [q| | |]; cbn [BigInt] in *; try (eexists; reflexivity).
  destruct (decide (Qnum q mod Z.pos (Qden q) = 0)); [|eexists; reflexivity].
  unfold writeBigUInt64LE.
  destruct (decide _) as [Hin|]; [|eexists; reflexivity].
  exfalso. exact (Hr _ eq_refl Hin).
Qed.

(** X4. With a positive integer amount below [2 ^ 64], a non-empty payment id
    and nothing at the derived address, Initialize hands exactly its
    transaction, signed by the payer, to the cluster, and ends as the
    cluster answers. *)
Theorem initializePayment_sends (payer_ : Keypair) (recipient_ : PublicKey)
    (amount_ : number) (paymentId : string) (w : World)
    (paymentPDA : PublicKey) (bump a : Z) :
  number_le_0 amount_ = false ->
  paymentId <> "" ->
  getPaymentPDA this (publicKey payer_) paymentId = Return (paymentPDA, bump) ->
  ledger w !! paymentPDA = None ->
  BigInt amount_ = Return a ->
  0 <= a < 2 ^ 64 ->
  Z.of_nat (length (Buffer_from_utf8 paymentId)) < 2 ^ 32 ->
  initializePayment this payer_ recipient_ amount_ paymentId w
  = sendAndConfirmTransaction
      (initializeTransaction this payer_ paymentPDA recipient_
         ([x00] ++ writeUIntLE 8 a
          ++ writeUIntLE 4 (Z.of_nat (length (Buffer_from_utf8 paymentId)))
          ++ Buffer_from_utf8 paymentId))
      [payer_] (confirmOptions this) w.
Proof.
  intros Ha Hid Epda El Eb Hr Hl. rewrite initializePayment_run, Ha.
  rewrite bool_decide_eq_false_2 by exact Hid. rewrite Epda, El.
  unfold serializeU64, serializeString, writeUInt32LE, writeBigUInt64LE.
  rewrite Eb. cbv [mbind Outcome_bind mret Outcome_ret].
  rewrite decide_True by exact Hr. rewrite decide_True by lia.
  unfold Buffer_concat. cbn [concat]. now rewrite app_nil_r.
Qed.

End Submissions.

(** Half a lamport is refused with a RangeError, and nothing is sent. *)
Lemma initializePayment_amount_range_witness :
  exists message,
    initializePayment Demo.client Demo.alice Demo.bob (Finite (1 # 2)) "P-1"
      Demo.empty_world
    = (Throw (RangeError message), Demo.empty_world).
Proof.
  apply (initializePayment_amount_range Demo.client Demo.alice Demo.bob
           (Finite (1 # 2)) "P-1" Demo.empty_world Demo.pda 255).
  - reflexivity.
  - discriminate.
  - reflexivity.
  - vm_compute. reflexivity.
  - intros a Ea. discriminate Ea.
Defined.

Lemma initializePayment_sends_witness :
  initializePayment Demo.client Demo.alice Demo.bob (Finite (500000 # 1))
    "P-1" Demo.empty_world
  = sendAndConfirmTransaction
      (initializeTransaction Demo.client Demo.alice Demo.pda Demo.bob
         ([x00] ++ writeUIntLE 8 500000
          ++ writeUIntLE 4 (Z.of_nat (length (Buffer_from_utf8 "P-1")))
          ++ Buffer_from_utf8 "P-1"))
      [Demo.alice] (confirmOptions Demo.client) Demo.empty_world.
Proof.
  apply (initializePayment_sends Demo.client Demo.alice Demo.bob
           (Finite (500000 # 1)) "P-1" Demo.empty_world Demo.pda 255 500000).
  - reflexivity.
  - discriminate.
  - reflexivity.
  - vm_compute. reflexivity.
  - reflexivity.
  - change (2 ^ 64) with 18446744073709551616. lia.
  - vm_compute. reflexivity.
Defined.

(** ** The decoded record *)

(** What the encoder accepts, and what it then writes. *)
Lemma serialize_Some (r : Payment) (bs : Buffer) :
  serialize r = Some bs ->
  bs = payer r ++ recipient r ++ writeUIntLE 8 (amount r)
       ++ writeUIntLE 4 (Z.of_nat (length (Buffer_from_utf8 (payment_id r))))
       ++ Buffer_from_utf8 (payment_id r)
       ++ writeUIntLE 1 (status r) ++ writeBigInt64LE (timestamp r) /\
  length (payer r) = 32%nat /\
  length (recipient r) = 32%nat /\
  0 <= amount r < 2 ^ 64 /\
  Z.of_nat (length (Buffer_from_utf8 (payment_id r))) < 2 ^ 32 /\
  0 <= status r < 2 ^ 8 /\
  - 2 ^ 63 <= timestamp r < 2 ^ 63.
Proof.
  destruct (Payment_object_lookup r) as (Lp & Lr & La & Li & Ls & Lt).
  unfold serialize, PaymentSchema. cbn [Borsh.serializeStruct].
  rewrite Lp, Lr, La, Li, Ls, Lt. cbn [mbind option_bind].
  cbn [Borsh.serializeField].
  destruct (decide (length (payer r) = 32%nat)) as [Hp|]; [|discriminate].
  cbn [mbind option_bind].
  destruct (decide (length (recipient r) = 32%nat)) as [Hr|]; [|discriminate].
  cbn [mbind option_bind].
  destruct (decide (0 <= amount r < 2 ^ 64)) as [Ha|]; [|discriminate].
  cbn [mbind option_bind].
  destruct (decide (Z.of_nat (length (Buffer_from_utf8 (payment_id r)))
                    < 2 ^ 32)) as [Hl|]; [|discriminate].
  cbn [mbind option_bind].
  destruct (decide (0 <= status r < 2 ^ 8)) as [Hs|]; [|discriminate].
  cbn [mbind option_bind].
  destruct (decide (- 2 ^ 63 <= timestamp r < 2 ^ 63)) as [Ht|];
    [|discriminate].
  cbn [mbind option_bind]. intros E. apply (inj Some) in E. subst bs.
  rewrite <- !app_assoc, app_nil_r. repeat split; assumption || lia.
Qed.

(** What decodes is what was encoded. *)
Lemma serialize_of_deserialize (bs : Buffer) (r : Payment) :
  deserialize bs = Some r -> serialize r = Some bs.
Proof.
  unfold deserialize, serialize, Borsh.deserialize.
  destruct (Borsh.deserializeStruct PaymentSchema bs) as [[obj rest]|] eqn:Ed;
    [|discriminate].
  destruct rest as [|x rest]; [|discriminate].
  cbn [mbind option_bind]. intros Hn.
  destruct (BorshFacts.serializeStruct_deserializeStruct _ _ _ _
              PaymentSchema_NoDup Ed) as (b & Hb & ->).
  rewrite app_nil_r, <- Hb.
  apply BorshFacts.serializeStruct_ext. intros name Hin. symmetry.
  now apply new_Payment_lookup.
Qed.

(** X6. Whatever bytes an account holds, a Payment decoded from them is
    well typed: payer and recipient are 32 bytes each, the amount is an
    unsigned 64-bit value, the status a byte, the timestamp a signed 64-bit
    value, and the payment id has fewer than [2 ^ 32] bytes. *)
Theorem deserialize_well_typed (bs : Buffer) (r : Payment) :
  deserialize bs = Some r ->
  length (payer r) = 32%nat /\
  length (recipient r) = 32%nat /\
  0 <= amount r < 2 ^ 64 /\
  Z.of_nat (String.length (payment_id r)) < 2 ^ 32 /\
  0 <= status r < 2 ^ 8 /\
  - 2 ^ 63 <= timestamp r < 2 ^ 63.
Proof.
  intros Hd. apply serialize_of_deserialize, serialize_Some in Hd.
  rewrite length_Buffer_from_utf8 in Hd. tauto.
Qed.

Lemma deserialize_well_typed_witness :
  length (payer Demo.completed_payment) = 32%nat /\
  length (recipient Demo.completed_payment) = 32%nat /\
  0 <= amount Demo.completed_payment < 2 ^ 64 /\
  Z.of_nat (String.length (payment_id Demo.completed_payment)) < 2 ^ 32 /\
  0 <= status Demo.completed_payment < 2 ^ 8 /\
  - 2 ^ 63 <= timestamp Demo.completed_payment < 2 ^ 63.
Proof.
  apply (deserialize_well_typed
           (account_data (Demo.payment_account Demo.completed_payment))).
  vm_compute. reflexivity.
Defined.

(** X7. In every buffer that decodes as a Payment the fixed fields stand
    at fixed offsets: the payer at byte 0, the recipient at byte 32, the
    amount (little-endian) at byte 64, the byte length of the payment id
    (little-endian) at byte 72 and its UTF-8 bytes from byte 76; the status
    byte and the timestamp follow the id, and the buffer is exactly 85 bytes
    longer than the id. *)
Theorem deserialize_offsets (bs : Buffer) (r : Payment) :
  deserialize bs = Some r ->
  take 32 bs = payer r /\
  take 32 (drop 32 bs) = recipient r /\
  readUIntLE (take 8 (drop 64 bs)) = amount r /\
  readUIntLE (take 4 (drop 72 bs))
  = Z.of_nat (String.length (payment_id r)) /\
  take (String.length (payment_id r)) (drop 76 bs)
  = Buffer_from_utf8 (payment_id r) /\
  readUIntLE (take 1 (drop (76 + String.length (payment_id r)) bs))
  = status r /\
  Borsh.toSigned64
    (readUIntLE (drop (77 + String.length (payment_id r)) bs))
  = timestamp r /\
  length bs = (85 + String.length (payment_id r))%nat.
Proof.
  intros Hd. apply serialize_of_deserialize, serialize_Some in Hd.
  destruct Hd as (-> & Hp & Hr & Ha & Hl & Hs & Ht).
  pose proof (length_Buffer_from_utf8 (payment_id r)) as Hn.
  set (n := String.length (payment_id r)) in *.
  rewrite Hn in *.
  assert (L8 : forall v, length (writeUIntLE 8 v) = 8%nat)
    by (intros; apply length_writeUIntLE).
  assert (L4 : forall v, length (writeUIntLE 4 v) = 4%nat)
    by (intros; apply length_writeUIntLE).
  assert (L1 : forall v, length (writeUIntLE 1 v) = 1%nat)
    by (intros; apply length_writeUIntLE).
  repeat split.
  - now rewrite take_app_length' by exact (eq_sym Hp).
  - rewrite drop_app_length' by exact (eq_sym Hp).
    now rewrite take_app_length' by exact (eq_sym Hr).
  - rewrite (app_assoc (payer r)), drop_app_length'
      by (rewrite length_app; lia).
    rewrite take_app_length' by (now rewrite L8).
    apply readUIntLE_writeUIntLE. exact Ha.
  - rewrite !(app_assoc _ _ (writeUIntLE 4 _ ++ _)).
    rewrite drop_app_length' by (rewrite !length_app, L8; lia).
    rewrite take_app_length' by (now rewrite L4).
    apply readUIntLE_writeUIntLE. change (256 ^ Z.of_nat 4) with (2 ^ 32).
    lia.
  - rewrite !(app_assoc _ _ (Buffer_from_utf8 _ ++ _)).
    rewrite drop_app_length' by (rewrite !length_app, L8, L4; lia).
    now rewrite take_app_length' by exact (eq_sym Hn).
  - rewrite !(app_assoc _ _ (writeUIntLE 1 _ ++ _)).
    rewrite drop_app_length' by (rewrite !length_app, L8, L4; lia).
    rewrite take_app_length' by (now rewrite L1).
    apply readUIntLE_writeUIntLE. exact Hs.
  - rewrite !(app_assoc _ _ (writeBigInt64LE _)).
    rewrite drop_app_length' by (rewrite !length_app, L8, L4, L1; lia).
    unfold writeBigInt64LE. rewrite readUIntLE_writeUIntLE.
    + now apply BorshFacts.toSigned64_mod.
    + change (256 ^ Z.of_nat 8) with (2 ^ 64).
      apply Z.mod_pos_bound. reflexivity.
  - rewrite !length_app. unfold writeBigInt64LE.
    rewrite L8, L4, L1, L8. lia.
Qed.

Lemma deserialize_offsets_witness :
  take 32 (account_data (Demo.payment_account Demo.payment))
  = payer Demo.payment /\
  take 32 (drop 32 (account_data (Demo.payment_account Demo.payment)))
  = recipient Demo.payment /\
  readUIntLE (take 8 (drop 64 (account_data
                                 (Demo.payment_account Demo.payment))))
  = 500000 /\
  length (account_data (Demo.payment_account Demo.payment)) = 88%nat.
Proof.
  destruct (deserialize_offsets
              (account_data (Demo.payment_account Demo.payment))
              Demo.payment) as (H1 & H2 & H3 & _ & _ & _ & _ & H8).
  - vm_compute. reflexivity.
  - repeat split; assumption.
Defined.

(** X8. Decoding is exact about length: when a buffer decodes as a
    Payment, no buffer that extends it with further bytes decodes, and none
    of its proper prefixes does. *)
Theorem deserialize_exact_length (bs : Buffer) (r : Payment) :
  deserialize bs = Some r ->
  (forall extra, extra <> [] -> deserialize (bs ++ extra) = None) /\
  (forall n, (n < length bs)%nat -> deserialize (take n bs) = None).
Proof.
  assert (Hext : forall b r', deserialize b = Some r' ->
                 forall extra, extra <> [] -> deserialize (b ++ extra) = None).
  { intros b r' Hd extra Hne.
    apply serialize_of_deserialize in Hd. unfold serialize in Hd.
    destruct (BorshFacts.deserializeStruct_serializeStruct _ _ _ extra Hd)
      as (obj & Hs & _).
    unfold deserialize, Borsh.deserialize. rewrite Hs.
    destruct extra; [congruence | reflexivity]. }
  intros Hd. split; [exact (Hext bs r Hd)|].
  intros n Hn.
  destruct (deserialize (take n bs)) as [r'|] eqn:Ed; [|reflexivity].
  assert (Hdrop : drop n bs <> []).
  { intros E. apply (f_equal length) in E. rewrite length_drop in E.
    cbn in E. lia. }
  pose proof (Hext _ _ Ed _ Hdrop) as Hnone.
  rewrite take_drop in Hnone. congruence.
Qed.

Lemma deserialize_exact_length_witness :
  deserialize (account_data (Demo.payment_account Demo.payment) ++ [x00])
  = None /\
  deserialize (take 87 (account_data (Demo.payment_account Demo.payment)))
  = None.
Proof.
  destruct (deserialize_exact_length
              (account_data (Demo.payment_account Demo.payment))
              Demo.payment) as (Hext & Hpre).
  - vm_compute. reflexivity.
  - split.
    + apply Hext. discriminate.
    + apply Hpre. vm_compute. lia.
Defined.

(** X9. No buffer of fewer than 85 bytes decodes as a Payment: the fixed
    fields alone take 85 bytes. *)
Theorem deserialize_short_buffer (bs : Buffer) :
  (length bs < 85)%nat -> deserialize bs = None.
Proof.
  intros Hlen. destruct (deserialize bs) as [r|] eqn:Ed; [|reflexivity].
  apply serialize_of_deserialize, serialize_Some in Ed.
  destruct Ed as (-> & Hp & Hr & _).
  rewrite !length_app, Hp, Hr in Hlen. unfold writeBigInt64LE in Hlen.
  rewrite !length_writeUIntLE in Hlen. lia.
Qed.

Lemma deserialize_short_buffer_witness :
  deserialize [] = None /\
  deserialize (repeat x00 84) = None.
Proof.
  split; apply deserialize_short_buffer; vm_compute; lia.
Defined.

(** ** The operations as a whole *)

Section Operations.
Context `{Web3} `{BorshPackage}.
Variable this : PaymentProtocolClient.

(** Each operation either throws in the world it started in, or is one
    call of [sendAndConfirmTransaction] on the transaction it built. *)
Lemma initializePayment_cases (payer_ : Keypair) (recipient_ : PublicKey)
    (amount_ : number) (paymentId : string) (w : World) :
  (exists e,
      initializePayment this payer_ recipient_ amount_ paymentId w
      = (Throw e, w)) \/
  (exists paymentPDA instructionData,
      initializePayment this payer_ recipient_ amount_ paymentId w
      = sendAndConfirmTransaction
          (initializeTransaction this payer_ paymentPDA recipient_
             instructionData)
          [payer_] (confirmOptions this) w).
Proof.
  rewrite initializePayment_run.
  destruct (number_le_0 amount_); [left; eexists; reflexivity|].
  destruct (bool_decide (paymentId = "")); [left; eexists; reflexivity|].
  destruct (getPaymentPDA this (publicKey payer_) paymentId)
    as [[pda bump]|e]; [|left; eexists; reflexivity].
  destruct (ledger w !! pda); [left; eexists; reflexivity|].
  destruct (serializeU64 amount_); [|left; eexists; reflexivity].
  destruct (serializeString paymentId); [|left; eexists; reflexivity].
  right. eexists _, _. reflexivity.
Qed.

Lemma completePayment_cases (payer_ : Keypair) (recipient_ : PublicKey)
    (paymentId : string) (w : World) :
  (exists e,
      completePayment this payer_ recipient_ paymentId w = (Throw e, w)) \/
  (exists paymentPDA,
      completePayment this payer_ recipient_ paymentId w
      = sendAndConfirmTransaction
          (completeTransaction this payer_ paymentPDA recipient_)
          [payer_] (confirmOptions this) w).
Proof.
  rewrite completePayment_run.
  destruct (getPaymentPDA this (publicKey payer_) paymentId)
    as [[pda bump]|e]; [|left; eexists; reflexivity].
  destruct (ledger w !! pda) as [info|]; [|left; eexists; reflexivity].
  destruct (decoded (account_data info)) as [payment|];
    [|left; eexists; reflexivity].
  destruct (decide (status payment ≠ PaymentStatus.Pending));
    [left; eexists; reflexivity|].
  right. eexists. reflexivity.
Qed.

Lemma cancelPayment_cases (payer_ : Keypair) (paymentId : string)
    (w : World) :
  (exists e, cancelPayment this payer_ paymentId w = (Throw e, w)) \/
  (exists paymentPDA,
      cancelPayment this payer_ paymentId w
      = sendAndConfirmTransaction
          (cancelTransaction this payer_ paymentPDA)
          [payer_] (confirmOptions this) w).
Proof.
  rewrite cancelPayment_run.
  destruct (getPaymentPDA this (publicKey payer_) paymentId)
    as [[pda bump]|e]; [|left; eexists; reflexivity].
  destruct (ledger w !! pda) as [info|]; [|left; eexists; reflexivity].
  destruct (decoded (account_data info)) as [payment|];
    [|left; eexists; reflexivity].
  destruct (decide (status payment ≠ PaymentStatus.Pending));
    [left; eexists; reflexivity|].
  right. eexists. reflexivity.
Qed.

(** What [sendAndConfirmTransaction] leaves behind: the cluster's answer,
    the cluster's ledger, one more entry in the log. *)
Lemma sendAndConfirmTransaction_run (t : Transaction)
    (signers : list Keypair) (options : string) (w : World) :
  sendAndConfirmTransaction t signers options w
  = (fst (execute (ledger w) t signers options),
     {| ledger := snd (execute (ledger w) t signers options);
        submitted := submitted w ++ [(t, signers)] |}).
Proof.
  unfold sendAndConfirmTransaction.
  now destruct (execute (ledger w) t signers options).
Qed.

(** X10. An operation that returns a signature has submitted: each of
    Initialize, Complete and Cancel either throws and leaves the world
    exactly as it was (same ledger, nothing submitted), or has handed
    exactly one transaction to the cluster; in that case its outcome is the
    cluster's outcome for that transaction and the ledger afterwards is the
    one the cluster returned. The client itself never writes the ledger. *)
Theorem operations_throw_or_submit (payer_ : Keypair) (recipient_ : PublicKey)
    (amount_ : number) (paymentId : string) (w : World) :
  let effect (run : Outcome string * World) :=
    (exists e, run = (Throw e, w)) \/
    (exists t,
        run = (fst (execute (ledger w) t [payer_] (confirmOptions this)),
               {| ledger := snd (execute (ledger w) t [payer_]
                                   (confirmOptions this));
                  submitted := submitted w ++ [(t, [payer_])] |})) in
  effect (initializePayment this payer_ recipient_ amount_ paymentId w) /\
  effect (completePayment this payer_ recipient_ paymentId w) /\
  effect (cancelPayment this payer_ paymentId w).
Proof.
  intros effect. unfold effect. split; [|split].
  - destruct (initializePayment_cases payer_ recipient_ amount_ paymentId w)
      as [He | (pda & d & ->)]; [now left|].
    right. eexists. apply sendAndConfirmTransaction_run.
  - destruct (completePayment_cases payer_ recipient_ paymentId w)
      as [He | (pda & ->)]; [now left|].
    right. eexists. apply sendAndConfirmTransaction_run.
  - destruct (cancelPayment_cases payer_ paymentId w)
      as [He | (pda & ->)]; [now left|].
    right. eexists. apply sendAndConfirmTransaction_run.
Qed.

(** X11. Whatever an operation submits is at most one transaction, signed
    by the payer alone, holding exactly one instruction, and that
    instruction is addressed to the program id the client was built
    with. *)
Theorem operations_one_signed_instruction (payer_ : Keypair)
    (recipient_ : PublicKey) (amount_ : number) (paymentId : string)
    (w : World) :
  one_signed_instruction this payer_
    (sent (initializePayment this payer_ recipient_ amount_ paymentId) w) /\
  one_signed_instruction this payer_
    (sent (completePayment this payer_ recipient_ paymentId) w) /\
  one_signed_instruction this payer_
    (sent (cancelPayment this payer_ paymentId) w).
Proof.
  assert (Hsend : forall t,
             one_signed_instruction this payer_ [(t, [payer_])] <->
             exists ix, instructions t = [ix] /\
                        ix_programId ix = programId this).
  { intros t. unfold one_signed_instruction. split.
    - intros (_ & Hall). apply (Hall t [payer_]). now left.
    - intros Hix. split; [simpl; lia|].
      intros t' s' [[= <- <-]|[]]. now split. }
  assert (Hnil : one_signed_instruction this payer_ []).
  { split; [simpl; lia | intros t s []]. }
  split; [|split].
  - destruct (initializePayment_cases payer_ recipient_ amount_ paymentId w)
      as [(e & He) | (pda & d & Hs)].
    + now rewrite (sent_unchanged _ _ _ He).
    + unfold sent at 1. rewrite Hs.
      fold (sent (sendAndConfirmTransaction
                    (initializeTransaction this payer_ pda recipient_ d)
                    [payer_] (confirmOptions this)) w).
      rewrite sent_sendAndConfirmTransaction. apply Hsend.
      eexists. split; reflexivity.
  - destruct (completePayment_cases payer_ recipient_ paymentId w)
      as [(e & He) | (pda & Hs)].
    + now rewrite (sent_unchanged _ _ _ He).
    + unfold sent at 1. rewrite Hs.
      fold (sent (sendAndConfirmTransaction
                    (completeTransaction this payer_ pda recipient_)
                    [payer_] (confirmOptions this)) w).
      rewrite sent_sendAndConfirmTransaction. apply Hsend.
      eexists. split; reflexivity.
  - destruct (cancelPayment_cases payer_ paymentId w)
      as [(e & He) | (pda & Hs)].
    + now rewrite (sent_unchanged _ _ _ He).
    + unfold sent at 1. rewrite Hs.
      fold (sent (sendAndConfirmTransaction
                    (cancelTransaction this payer_ pda)
                    [payer_] (confirmOptions this)) w).
      rewrite sent_sendAndConfirmTransaction. apply Hsend.
      eexists. split; reflexivity.
Qed.

(** X12. When the address derivation throws, Complete and Cancel rethrow
    that very error, and so does an Initialize whose inputs passed
    validation; nothing is submitted and the world is left as it was. The
    read side swallows the error instead: [getPayment] and
    [getPaymentStatus] return null and [paymentExists] returns false. *)
Theorem derivation_failure (payer_ : Keypair) (recipient_ : PublicKey)
    (amount_ : number) (paymentId : string) (w : World) (e : Exception) :
  getPaymentPDA this (publicKey payer_) paymentId = Throw e ->
  (number_le_0 amount_ = false -> paymentId <> "" ->
   initializePayment this payer_ recipient_ amount_ paymentId w
   = (Throw e, w)) /\
  completePayment this payer_ recipient_ paymentId w = (Throw e, w) /\
  cancelPayment this payer_ paymentId w = (Throw e, w) /\
  getPayment this (publicKey payer_) paymentId w = (Return None, w) /\
  paymentExists this (publicKey payer_) paymentId w = (Return false, w) /\
  getPaymentStatus this (publicKey payer_) paymentId w = (Return None, w).
Proof.
  intros Epda. repeat split.
  - intros Ha Hid. rewrite initializePayment_run, Ha.
    rewrite bool_decide_eq_false_2 by exact Hid. now rewrite Epda.
  - now rewrite completePayment_run, Epda.
  - now rewrite cancelPayment_run, Epda.
  - now rewrite getPayment_run, Epda.
  - unfold paymentExists. cbv [mbind Client_bind mret Client_ret].
    now rewrite getPayment_run, Epda.
  - unfold getPaymentStatus. cbv [mbind Client_bind mret Client_ret].
    now rewrite getPayment_run, Epda.
Qed.

(** X13. An account on whose bytes [deserialize] throws makes its payment
    id unusable: the read side reports no payment ([paymentExists] false,
    [getPaymentStatus] null), Complete and Cancel fail with
    PaymentNotFound, and yet an Initialize with valid inputs fails with
    PaymentAlreadyExists, because it looks at the account and not at its
    contents. Nothing is submitted in any of these calls. *)
Theorem undecodable_account (payer_ : Keypair) (recipient_ : PublicKey)
    (amount_ : number) (paymentId : string) (w : World)
    (paymentPDA : PublicKey) (bump : Z) (info : AccountInfo)
    (e : Exception) :
  getPaymentPDA this (publicKey payer_) paymentId = Return (paymentPDA, bump) ->
  ledger w !! paymentPDA = Some info ->
  package_deserialize PaymentSchema (account_data info) = Throw e ->
  number_le_0 amount_ = false ->
  paymentId <> "" ->
  paymentExists this (publicKey payer_) paymentId w = (Return false, w) /\
  getPaymentStatus this (publicKey payer_) paymentId w = (Return None, w) /\
  completePayment this payer_ recipient_ paymentId w
  = (Throw (PaymentNotFound paymentId), w) /\
  cancelPayment this payer_ paymentId w
  = (Throw (PaymentNotFound paymentId), w) /\
  initializePayment this payer_ recipient_ amount_ paymentId w
  = (Throw (PaymentAlreadyExists paymentId), w).
Proof.
  intros Epda El Ed Ha Hid.
  assert (Ed' : decoded (account_data info) = None)
    by (unfold decoded; now rewrite Ed).
  repeat split.
  - unfold paymentExists. cbv [mbind Client_bind mret Client_ret].
    now rewrite getPayment_run, Epda, El, Ed'.
  - unfold getPaymentStatus. cbv [mbind Client_bind mret Client_ret].
    now rewrite getPayment_run, Epda, El, Ed'.
  - now rewrite completePayment_run, Epda, El, Ed'.
  - now rewrite cancelPayment_run, Epda, El, Ed'.
  - now apply (initializePayment_occupied this _ _ _ _ _ _ _ _ Epda El).
Qed.

(** With a package that refuses the schema, no bytes give a record. *)
Lemma decoded_refused (data : Buffer) :
  refuses_PaymentSchema -> decoded data = None.
Proof.
  intros Href. unfold decoded. destruct (Href data) as (e & ->). reflexivity.
Qed.

Lemma getPayment_refused (payer_ : PublicKey) (paymentId : string)
    (w : World) :
  refuses_PaymentSchema ->
  getPayment this payer_ paymentId w = (Return None, w).
Proof.
  intros Href. rewrite getPayment_run.
  destruct (getPaymentPDA this payer_ paymentId) as [[pda bump]|e];
    [|reflexivity].
  destruct (ledger w !! pda) as [info|]; [|reflexivity].
  now rewrite decoded_refused.
Qed.

(** X14. With a package that refuses [PaymentSchema], the read side never
    sees a record: whatever the account at the derived address holds, a
    record as the program writes it included, [getPayment] returns null,
    [paymentExists] returns false and [getPaymentStatus] returns null. *)
Theorem refused_schema_reads_null (payer_ : PublicKey) (paymentId : string)
    (w : World) :
  refuses_PaymentSchema ->
  getPayment this payer_ paymentId w = (Return None, w) /\
  paymentExists this payer_ paymentId w = (Return false, w) /\
  getPaymentStatus this payer_ paymentId w = (Return None, w).
Proof.
  intros Href. split; [now apply getPayment_refused|].
  unfold paymentExists, getPaymentStatus.
  cbv [mbind Client_bind mret Client_ret].
  rewrite getPayment_refused by exact Href. split; reflexivity.
Qed.

(** X15. What [getPaymentStatus] reports decides what Complete and Cancel
    do in the same world, for the same payer and payment id: on Pending
    both hand their transaction to the cluster; on any other status [s]
    both throw "Payment is [s], cannot ..." and submit nothing; on null
    both throw and submit nothing. *)
Theorem status_decides_completion (payer_ : Keypair) (recipient_ : PublicKey)
    (paymentId : string) (w : World) (reported : option PaymentStatus) :
  getPaymentStatus this (publicKey payer_) paymentId w = (Return reported, w) ->
  match reported with
  | Some s =>
      if decide (s = PaymentStatus.Pending) then
        exists paymentPDA bump,
          getPaymentPDA this (publicKey payer_) paymentId
          = Return (paymentPDA, bump) /\
          completePayment this payer_ recipient_ paymentId w
          = sendAndConfirmTransaction
              (completeTransaction this payer_ paymentPDA recipient_)
              [payer_] (confirmOptions this) w /\
          cancelPayment this payer_ paymentId w
          = sendAndConfirmTransaction
              (cancelTransaction this payer_ paymentPDA)
              [payer_] (confirmOptions this) w
      else
        completePayment this payer_ recipient_ paymentId w
        = (Throw (InvalidStateTransition s "complete"), w) /\
        cancelPayment this payer_ paymentId w
        = (Throw (InvalidStateTransition s "cancel"), w)
  | None =>
      exists e,
        completePayment this payer_ recipient_ paymentId w = (Throw e, w) /\
        cancelPayment this payer_ paymentId w = (Throw e, w)
  end.
Proof.
  unfold getPaymentStatus. cbv [mbind Client_bind mret Client_ret].
  rewrite getPayment_run, completePayment_run, cancelPayment_run.
  destruct (getPaymentPDA this (publicKey payer_) paymentId)
    as [[pda bump]|e].
  - destruct (ledger w !! pda) as [info|].
    + destruct (decoded (account_data info)) as [payment|].
      * intros [= <-].
        destruct (decide (status payment = PaymentStatus.Pending)) as [Hs|Hs].
        -- destruct (decide (status payment ≠ PaymentStatus.Pending));
             [tauto|].
           exists pda, bump. repeat split.
        -- destruct (decide (status payment ≠ PaymentStatus.Pending));
             [|tauto].
           split; reflexivity.
      * intros [= <-]. eexists. split; reflexivity.
    + intros [= <-]. eexists. split; reflexivity.
  - intros [= <-]. eexists. split; reflexivity.
Qed.

(** X18. With a package that refuses [PaymentSchema], Complete and Cancel
    never reach the cluster: in every world, for every payer, recipient and
    payment id, they throw and submit nothing, whatever the status of the
    record at the derived address; the error is PaymentNotFound whenever
    the derivation succeeds. *)
Theorem refused_schema_never_submits (payer_ : Keypair)
    (recipient_ : PublicKey) (paymentId : string) (w : World) :
  refuses_PaymentSchema ->
  sent (completePayment this payer_ recipient_ paymentId) w = [] /\
  sent (cancelPayment this payer_ paymentId) w = [] /\
  (exists e,
      completePayment this payer_ recipient_ paymentId w = (Throw e, w) /\
      cancelPayment this payer_ paymentId w = (Throw e, w)) /\
  (forall paymentPDA bump,
      getPaymentPDA this (publicKey payer_) paymentId
      = Return (paymentPDA, bump) ->
      completePayment this payer_ recipient_ paymentId w
      = (Throw (PaymentNotFound paymentId), w) /\
      cancelPayment this payer_ paymentId w
      = (Throw (PaymentNotFound paymentId), w)).
Proof.
  intros Href.
  assert (Hthrow : exists e,
             completePayment this payer_ recipient_ paymentId w = (Throw e, w)
             /\ cancelPayment this payer_ paymentId w = (Throw e, w)).
  { rewrite completePayment_run, cancelPayment_run.
    destruct (getPaymentPDA this (publicKey payer_) paymentId)
      as [[pda bump]|e]; [|eexists; split; reflexivity].
    destruct (ledger w !! pda) as [info|]; [|eexists; split; reflexivity].
    rewrite decoded_refused by exact Href. eexists; split; reflexivity. }
  destruct Hthrow as (e & Ec & Ek).
  split; [exact (sent_unchanged _ _ _ Ec)|].
  split; [exact (sent_unchanged _ _ _ Ek)|].
  split; [now exists e|].
  intros pda bump Epda. rewrite completePayment_run, cancelPayment_run, Epda.
  destruct (ledger w !! pda) as [info|]; [|split; reflexivity].
  rewrite decoded_refused by exact Href. split; reflexivity.
Qed.

End Operations.

Section Guards.
Context `{Web3} `{BorshPackage}.
Variable this : PaymentProtocolClient.

(** X17. Initialize reaches the cluster only when its amount is not
    [<= 0] and is an integer below [2 ^ 64], its payment id is not empty,
    the address derivation succeeded and no account exists at the derived
    address. *)
Theorem initialize_submits_only_fresh (payer_ : Keypair)
    (recipient_ : PublicKey) (amount_ : number) (paymentId : string)
    (w : World) (t : Transaction) (signers : list Keypair) :
  In (t, signers)
     (sent (initializePayment this payer_ recipient_ amount_ paymentId) w) ->
  number_le_0 amount_ = false /\
  paymentId <> "" /\
  (exists a, BigInt amount_ = Return a /\ 0 <= a < 2 ^ 64) /\
  exists paymentPDA bump,
    getPaymentPDA this (publicKey payer_) paymentId
    = Return (paymentPDA, bump) /\
    ledger w !! paymentPDA = None.
Proof.
  intros Hin.
  destruct (sent_initializePayment this _ _ _ _ _ _ _ Hin)
    as (pda & bump & a & Epda & El & Ea & Hr & _ & _).
  pose proof (initializePayment_run this payer_ recipient_ amount_
                paymentId w) as Erun.
  destruct (number_le_0 amount_) eqn:Hle.
  { rewrite (sent_unchanged _ _ _ Erun) in Hin. destruct Hin. }
  destruct (bool_decide (paymentId = "")) eqn:Hid.
  { rewrite (sent_unchanged _ _ _ Erun) in Hin. destruct Hin. }
  apply bool_decide_eq_false in Hid.
  split; [reflexivity|]. split; [exact Hid|]. split; [now exists a|].
  now exists pda, bump.
Qed.

End Guards.

(** ** The hand-written serializers *)

Lemma BigInt_Finite (q : Q) (n : Z) :
  BigInt (Finite q) = Return n <-> (q == inject_Z n)%Q.
Proof.
  destruct q as [a d]. unfold BigInt, Qeq, inject_Z. cbn [Qnum Qden].
  rewrite Z.mul_1_r.
  destruct (decide (a mod Z.pos d = 0)) as [Hm|Hm].
  - pose proof (Z.div_mod a (Z.pos d) ltac:(lia)) as Hdm.
    rewrite Hm, Z.add_0_r in Hdm. split.
    + intros [= <-]. lia.
    + intros ->. f_equal. apply Z.div_mul. lia.
  - split; [discriminate|]. intros ->. exfalso. apply Hm.
    apply Z.mod_mul. lia.
Qed.

(** X19. [serializeU64] returns bytes exactly for the numbers that are an
    integer [n] with [0 <= n < 2 ^ 64]: then the bytes are the 8
    little-endian bytes of [n], and [n] is read back from them. For every
    other number (a fraction, a negative, [2 ^ 64] or more, NaN, an
    infinity) it throws a RangeError. *)
Theorem serializeU64_domain (value : number) :
  (forall b,
      serializeU64 value = Return b <->
      exists q n, value = Finite q /\ (q == inject_Z n)%Q /\
                  0 <= n < 2 ^ 64 /\ b = writeUIntLE 8 n) /\
  (forall b,
      serializeU64 value = Return b ->
      length b = 8%nat /\ BigInt value = Return (readUIntLE b)) /\
  (forall e,
      serializeU64 value = Throw e -> exists message, e = RangeError message).
Proof.
  split; [|split].
  - intros b. split.
    + intros Hs. destruct (serializeU64_Return _ _ Hs) as (n & Hb & Hr & ->).
      destruct value as [q| | |]; try discriminate Hb.
      exists q, n. repeat split; try lia. now apply BigInt_Finite.
    + intros (q & n & -> & Hq & Hr & ->). apply BigInt_Finite in Hq.
      unfold serializeU64. rewrite Hq. cbv [mbind Outcome_bind].
      unfold writeBigUInt64LE. now rewrite decide_True.
  - intros b Hs. destruct (serializeU64_Return _ _ Hs) as (n & Hb & Hr & ->).
    split; [apply length_writeUIntLE|].
    rewrite readUIntLE_writeUIntLE; [exact Hb|].
    change (256 ^ Z.of_nat 8) with (2 ^ 64). exact Hr.
  - intros e. unfold serializeU64. cbv [mbind Outcome_bind].
    destruct value as [q| | |]; cbn [BigInt];
      try (intros [= <-]; eexists; reflexivity).
    destruct (decide _); [|intros [= <-]; eexists; reflexivity].
    unfold writeBigUInt64LE.
    destruct (decide _); [discriminate|].
    intros [= <-]. eexists; reflexivity.
Qed.

(** X20. The data of an Initialize instruction determines what it
    encodes: when two instructions, each built as the opcode byte followed
    by [serializeU64(amount)] and [serializeString(paymentId)], have the
    same data, their amounts are the same integer and their payment ids
    have the same UTF-8 bytes. *)
Theorem initialize_data_injective (amount1 amount2 : number)
    (id1 id2 : string) (a1 a2 i1 i2 : Buffer) :
  serializeU64 amount1 = Return a1 ->
  serializeString id1 = Return i1 ->
  serializeU64 amount2 = Return a2 ->
  serializeString id2 = Return i2 ->
  Buffer_concat [[x00]; a1; i1] = Buffer_concat [[x00]; a2; i2] ->
  BigInt amount1 = BigInt amount2 /\
  Buffer_from_utf8 id1 = Buffer_from_utf8 id2.
Proof.
  intros Ha1 Hi1 Ha2 Hi2 E.
  destruct (serializeU64_Return _ _ Ha1) as (n1 & Hb1 & Hr1 & ->).
  destruct (serializeU64_Return _ _ Ha2) as (n2 & Hb2 & Hr2 & ->).
  destruct (serializeString_Return _ _ Hi1) as (Hl1 & ->).
  destruct (serializeString_Return _ _ Hi2) as (Hl2 & ->).
  unfold Buffer_concat in E. cbn [concat] in E. rewrite !app_nil_r in E.
  apply app_inv_head in E.
  apply app_inj_1 in E as [En E]; [|now rewrite !length_writeUIntLE].
  apply app_inj_1 in E as [_ Eu]; [|now rewrite !length_writeUIntLE].
  split; [|exact Eu].
  rewrite Hb1, Hb2. f_equal.
  rewrite <- (readUIntLE_writeUIntLE 8 n1), <- (readUIntLE_writeUIntLE 8 n2);
    [now rewrite En | |]; change (256 ^ Z.of_nat 8) with (2 ^ 64);
    assumption.
Qed.

(** ** The operations on examples *)

(** The package as the client finds it refuses the schema: the fields
    before the timestamp are read or the buffer ends, and the timestamp's
    type has no method in the reader. *)
Lemma installed_package_refuses : @refuses_PaymentSchema Installed.package.
Proof.
  intros data. unfold package_deserialize, Installed.package,
    Installed.deserialize, PaymentSchema.
  cbn [Installed.deserializeStruct Installed.reader_has_method].
  repeat match goal with
         | |- context [Borsh.deserializeField ?ft ?b] =>
             destruct (Borsh.deserializeField ft b) as [[? ?]|]
         end;
    eexists; reflexivity.
Qed.

(** A payment id of 34 bytes under the stand-in that bounds seeds: the
    derivation throws, the operations rethrow, the read side answers
    null. *)
Lemma derivation_failure_witness :
  @completePayment Strict.web3 Demo.package Demo.client Demo.alice Demo.bob
    Strict.long_id Demo.empty_world
  = (Throw (TypeError "Max seed length exceeded"), Demo.empty_world) /\
  @cancelPayment Strict.web3 Demo.package Demo.client Demo.alice
    Strict.long_id Demo.empty_world
  = (Throw (TypeError "Max seed length exceeded"), Demo.empty_world) /\
  @initializePayment Strict.web3 Demo.client Demo.alice Demo.bob
    (Finite (500000 # 1)) Strict.long_id Demo.empty_world
  = (Throw (TypeError "Max seed length exceeded"), Demo.empty_world) /\
  @getPayment Strict.web3 Demo.package Demo.client (publicKey Demo.alice)
    Strict.long_id Demo.empty_world
  = (Return None, Demo.empty_world).
Proof.
  destruct (@derivation_failure Strict.web3 Demo.package Demo.client
              Demo.alice Demo.bob
              (Finite (500000 # 1)) Strict.long_id Demo.empty_world
              (TypeError "Max seed length exceeded") eq_refl)
    as (Hi & Hc & Hk & Hg & _).
  split; [exact Hc|]. split; [exact Hk|].
  split; [apply Hi; [reflexivity | discriminate] | exact Hg].
Defined.

Lemma undecodable_account_witness :
  paymentExists Demo.client (publicKey Demo.alice) "P-1" Demo.malformed_world
  = (Return false, Demo.malformed_world) /\
  initializePayment Demo.client Demo.alice Demo.bob (Finite (500000 # 1))
    "P-1" Demo.malformed_world
  = (Throw (PaymentAlreadyExists "P-1"), Demo.malformed_world).
Proof.
  destruct (undecodable_account Demo.client Demo.alice Demo.bob
              (Finite (500000 # 1)) "P-1" Demo.malformed_world Demo.pda 255
              Demo.malformed_account
              (BorshError "Reached the end of buffer"))
    as (He & _ & _ & _ & Hi).
  - reflexivity.
  - vm_compute. reflexivity.
  - vm_compute. reflexivity.
  - reflexivity.
  - discriminate.
  - split; assumption.
Defined.

(** The records of "P-1", pending and completed, as the program writes
    them: with the package as the client finds it, [getPayment] returns
    null on both. *)
Lemma refused_schema_reads_null_witness :
  ledger Demo.pending_world !! Demo.pda
  = Some (Demo.payment_account Demo.payment) /\
  deserialize (account_data (Demo.payment_account Demo.payment))
  = Some Demo.payment /\
  (getPayment Demo.client (publicKey Demo.alice) "P-1" Demo.pending_world
   = (Return None, Demo.pending_world) /\
   paymentExists Demo.client (publicKey Demo.alice) "P-1" Demo.pending_world
   = (Return false, Demo.pending_world) /\
   getPaymentStatus Demo.client (publicKey Demo.alice) "P-1"
     Demo.pending_world
   = (Return None, Demo.pending_world)) /\
  getPayment Demo.client (publicKey Demo.alice) "P-1" Demo.completed_world
  = (Return None, Demo.completed_world).
Proof.
  split; [vm_compute; reflexivity|]. split; [vm_compute; reflexivity|].
  split.
  - exact (refused_schema_reads_null Demo.client (publicKey Demo.alice) "P-1"
             Demo.pending_world installed_package_refuses).
  - exact (proj1 (refused_schema_reads_null Demo.client
                    (publicKey Demo.alice) "P-1" Demo.completed_world
                    installed_package_refuses)).
Defined.

(** The status of the pending "P-1" is reported as null, and Complete and
    Cancel throw the same error. *)
Lemma status_decides_completion_witness :
  getPaymentStatus Demo.client (publicKey Demo.alice) "P-1" Demo.pending_world
  = (Return None, Demo.pending_world) /\
  exists e,
    completePayment Demo.client Demo.alice Demo.bob "P-1" Demo.pending_world
    = (Throw e, Demo.pending_world) /\
    cancelPayment Demo.client Demo.alice "P-1" Demo.pending_world
    = (Throw e, Demo.pending_world).
Proof.
  assert (Es : getPaymentStatus Demo.client (publicKey Demo.alice) "P-1"
                 Demo.pending_world
               = (Return None, Demo.pending_world))
    by (vm_compute; reflexivity).
  split; [exact Es|].
  exact (status_decides_completion Demo.client Demo.alice Demo.bob "P-1"
           Demo.pending_world _ Es).
Defined.

Lemma initialize_submits_only_fresh_witness :
  number_le_0 (Finite (500000 # 1)) = false /\
  "P-1" <> "" /\
  (exists a, BigInt (Finite (500000 # 1)) = Return a /\ 0 <= a < 2 ^ 64) /\
  exists paymentPDA bump,
    getPaymentPDA Demo.client (publicKey Demo.alice) "P-1"
    = Return (paymentPDA, bump) /\
    ledger Demo.empty_world !! paymentPDA = None.
Proof.
  apply (initialize_submits_only_fresh Demo.client Demo.alice Demo.bob
           (Finite (500000 # 1)) "P-1" Demo.empty_world
           (initializeTransaction Demo.client Demo.alice Demo.pda Demo.bob
              [x00; x20; xa1; x07; x00; x00; x00; x00; x00;
               x03; x00; x00; x00; x50; x2d; x31])
           [Demo.alice]).
  assert (Es : sent (initializePayment Demo.client Demo.alice Demo.bob
                       (Finite (500000 # 1)) "P-1") Demo.empty_world
               = [ (initializeTransaction Demo.client Demo.alice Demo.pda
                      Demo.bob
                      [x00; x20; xa1; x07; x00; x00; x00; x00; x00;
                       x03; x00; x00; x00; x50; x2d; x31], [Demo.alice]) ])
    by (vm_compute; reflexivity).
  rewrite Es. left. reflexivity.
Defined.

(** Complete and Cancel of the pending "P-1", with the package as the
    client finds it: not found, and nothing is submitted. *)
Lemma refused_schema_never_submits_witness :
  status Demo.payment = PaymentStatus.Pending /\
  completePayment Demo.client Demo.alice Demo.bob "P-1" Demo.pending_world
  = (Throw (PaymentNotFound "P-1"), Demo.pending_world) /\
  cancelPayment Demo.client Demo.alice "P-1" Demo.pending_world
  = (Throw (PaymentNotFound "P-1"), Demo.pending_world) /\
  sent (completePayment Demo.client Demo.alice Demo.bob "P-1")
    Demo.pending_world = [] /\
  sent (cancelPayment Demo.client Demo.alice "P-1") Demo.pending_world = [].
Proof.
  destruct (refused_schema_never_submits Demo.client Demo.alice Demo.bob "P-1"
              Demo.pending_world installed_package_refuses)
    as (Hc & Hk & _ & Hnf).
  destruct (Hnf Demo.pda 255 eq_refl) as (Ec & Ek).
  split; [reflexivity|]. split; [exact Ec|]. split; [exact Ek|].
  split; [exact Hc | exact Hk].
Defined.

(** Two Initialize instructions with the same 16 bytes of data encode the
    same amount and the same payment id bytes. *)
Lemma initialize_data_injective_witness :
  BigInt (Finite (500000 # 1)) = BigInt (Finite (1000000 # 2)) /\
  Buffer_from_utf8 "P-1" = Buffer_from_utf8 "P-1".
Proof.
  apply (initialize_data_injective (Finite (500000 # 1))
           (Finite (1000000 # 2)) "P-1" "P-1"
           (writeUIntLE 8 500000) (writeUIntLE 8 500000)
           (writeUIntLE 4 3 ++ Buffer_from_utf8 "P-1")
           (writeUIntLE 4 3 ++ Buffer_from_utf8 "P-1"));
    reflexivity.
Defined.

(** ** The errors the client throws *)

Lemma list_ascii_of_string_append (s t : string) :
  String.list_ascii_of_string (s +:+ t)
  = String.list_ascii_of_string s ++ String.list_ascii_of_string t.
Proof.
  induction s as [|a s IH]; [reflexivity|].
  simpl. now rewrite IH.
Qed.

Lemma append_inv_tail (s1 s2 t : string) : s1 +:+ t = s2 +:+ t -> s1 = s2.
Proof.
  intros E. apply (f_equal String.list_ascii_of_string) in E.
  rewrite !list_ascii_of_string_append in E. apply app_inv_tail in E.
  rewrite <- (String.string_of_list_ascii_of_string s1),
          <- (String.string_of_list_ascii_of_string s2).
  now rewrite E.
Qed.

(** Two strings that end differently are different, whatever stands before
    the endings. *)
Lemma append_last_ne (s1 s2 t1 t2 : string) (a1 a2 : Ascii.ascii) :
  a1 <> a2 ->
  s1 +:+ t1 +:+ String a1 "" <> s2 +:+ t2 +:+ String a2 "".
Proof.
  intros Hne E. apply (f_equal String.list_ascii_of_string) in E.
  rewrite !list_ascii_of_string_append in E.
  rewrite !app_assoc in E. cbn [String.list_ascii_of_string] in E.
  apply app_inj_2 in E as [_ E]; [|reflexivity]. congruence.
Qed.

(** X21. The errors of the client can be told apart by their messages,
    whatever payment ids and statuses they mention: the five kinds
    (InvalidAmount, InvalidPaymentId, PaymentAlreadyExists, PaymentNotFound,
    InvalidStateTransition) never share a message, and the messages of
    PaymentAlreadyExists and of PaymentNotFound determine the payment id
    they name. *)
Theorem client_errors_distinct (id1 id2 : string) (s : PaymentStatus)
    (verb : string) :
  InvalidAmount <> InvalidPaymentId /\
  InvalidAmount <> PaymentAlreadyExists id1 /\
  InvalidAmount <> PaymentNotFound id1 /\
  InvalidAmount <> InvalidStateTransition s verb /\
  InvalidPaymentId <> PaymentAlreadyExists id1 /\
  InvalidPaymentId <> PaymentNotFound id1 /\
  InvalidPaymentId <> InvalidStateTransition s verb /\
  PaymentAlreadyExists id1 <> PaymentNotFound id2 /\
  PaymentAlreadyExists id1 <> InvalidStateTransition s verb /\
  PaymentNotFound id1 <> InvalidStateTransition s verb /\
  (PaymentAlreadyExists id1 = PaymentAlreadyExists id2 -> id1 = id2) /\
  (PaymentNotFound id1 = PaymentNotFound id2 -> id1 = id2).
Proof.
  unfold InvalidAmount, InvalidPaymentId, PaymentAlreadyExists,
    PaymentNotFound, InvalidStateTransition, dquote.
  repeat split; try (cbn; discriminate).
  - intros [= E].
    exact (append_last_ne id1 id2
             (String (Ascii.ascii_of_nat 34) " already exist")
             (String (Ascii.ascii_of_nat 34) " not foun")
             (Ascii.ascii_of_nat 115) (Ascii.ascii_of_nat 100)
             ltac:(discriminate) E).
  - intros [= E].
    exact (append_inv_tail id1 id2
             (String (Ascii.ascii_of_nat 34) " already exists") E).
  - intros [= E].
    exact (append_inv_tail id1 id2
             (String (Ascii.ascii_of_nat 34) " not found") E).
Qed.
